(** * Minecraft server status bot: a shallow embedding of [index.js]

    The bot keeps three process-wide maps ([statusMessages],
    [updateIntervals], [playerHistory]) and runs, per configured server,
    the asynchronous function [updateServerStatus] on a timer; a slash
    command [status] runs a one-shot variant of it.

    The embedding follows the source function by function.

    - Numbers that the program handles (epoch milliseconds, player
      counts, ports, latencies) are integers and are modelled in [Z].
    - [statusMessages] and [playerHistory] are [gmap]s keyed by the
      channel id (a string).  The array stored under a key is mutated in
      place by the source and stored back; since no reference to it
      outlives the call, the functional update of the map is the same.
    - Code that reads or writes the maps, reads the clock, calls a
      collaborator or may throw lives in the monad [M]: a state monad over
      [World] whose result is either a value or a thrown JavaScript error.
    - An [await] on an external collaborator (Discord, the status query)
      takes its answer from an [Env]: the answer is a result or a rejection,
      together with the clock reading at which the promise settles.
    - The methods of [EmbedBuilder] validate their argument and throw when
      they refuse it.  The validation is a parameter, [validate]; the calls
      are made outside any [try], so an error thrown by the builder ends the
      tick or the command handler.
    - [String.prototype.toLowerCase], [Date.prototype.toLocaleTimeString]
      and the raster backend of the chart are parameters as well.
    - [trace] is a ghost log: every call that the program makes to a
      collaborator, and every entry into [updatePlayerHistory],
      [generatePlayerChart] and the embed builder, is appended in program
      order.  Nothing in the program reads it.
    - [updateServerStatus] and the command handler are run from their first
      statement to their last: [exec] is one activation on its own.  Timer
      ticks are started without being awaited, so two activations can
      overlap at their awaits; for the delivery of a tick, where the stored
      handle is read before the await and written after it, the two halves
      are separate functions ([reconcile_call], [reconcile_resume]) and an
      overlapping run of two deliveries is [reconcile_overlapped].

    Outside the model: the firing of the timers (the table of timers kept
    by [initializeStatusUpdates] is modelled, [Timers]), the [ready] handler
    and the presence it sets, and the fixed styling options of the chart.  A
    thrown value is an [Error] object; a status response has all the members
    read; the option of the command is a string. *)

From stdpp Require Import gmap strings list fin_maps pretty.
From Stdlib Require Import ZArith Lia Ascii.

Local Open Scope Z_scope.

(** ** Data *)

(** A thrown value: an [Error] object, of which the program reads only
    [message]. *)
Record JsError := { message : string }.

Inductive Result (A : Type) :=
| Ok (a : A)
| Throw (e : JsError).
Arguments Ok {A} a.
Arguments Throw {A} e.

(** One entry of a player history: [{ timestamp, count }]. *)
Record Sample := { timestamp : Z; count : Z }.

Definition Buffer := list Byte.byte.

(** Handles of the chat platform; the program treats both as opaque. *)
Record Message := { messageId : string }.
Record Channel := { channelRef : string }.

Record Field := { fname : string; fvalue : string; inline : bool }.

(** [config.embed.footer], which is handed to [setFooter] as it is.  The
    configuration file is not in the source: the value may be a string or
    an object with a text. *)
Inductive Footer :=
| FooterText (text : string)
| FooterOptions (text : string) (iconURL : option string).

(** The state of an [EmbedBuilder]. *)
Record Embed := {
  title : string;
  color : string;
  stamp : option Z;
  image : option string;
  fields : list Field;
  footer : option Footer
}.

Record Attachment := { attachment : Buffer; attachmentName : string }.

(** The argument of [message.edit], [channel.send] and
    [interaction.reply]. *)
Record Payload := {
  content : option string;
  embeds : list Embed;
  files : list Attachment;
  ephemeral : bool
}.

(** What [util.status] resolves to, restricted to the members read. *)
Record StatusResponse := {
  players_online : Z;
  players_max : Z;
  version_name : string;
  motd_clean : string;
  roundTripLatency : Z
}.

(** The two object shapes returned by [checkServerStatus]. *)
Inductive Status :=
| Online (players maxPlayers : Z) (version description : string) (ping : Z)
| Offline (error : string).

Definition online (status : Status) : bool :=
  match status with Online _ _ _ _ _ => true | Offline _ => false end.

(** ** Configuration ([config.json]) *)

Record Banner := { banner_enabled : bool; banner_url : string }.

Record ChartOptions := {
  chart_enabled : bool;
  chart_color : option string;
  historyHours : option Z
}.

Record Display := {
  display_type : string;
  banner : Banner;
  chart : ChartOptions;
  showNextUpdate : bool
}.

Record ServerConfig := {
  name : string;
  ip : string;
  port : option Z;
  channelId : string;
  updateInterval : Z;
  display : Display
}.

Record EmbedConfig := {
  embed_title : string;
  colors_online : string;
  colors_offline : string;
  embed_footer : Footer
}.

Record Config := {
  config_embed : EmbedConfig;
  minecraft_servers : list ServerConfig
}.

(** The declarative chart description handed to the raster backend: the
    members of the [Chart] configuration that depend on the arguments. *)
Record ChartSpec := {
  labels : list string;
  data : list Z;
  borderColor : string;
  backgroundColor : string
}.

(** ** Ghost trace *)

Inductive LogLevel := Info | Success | Error | Warn.

Inductive Event :=
| ChannelsFetch (id : string)
| UtilStatus (ip : string) (port : Z)
| UpdatePlayerHistory (serverId : string) (playerCount : Z)
| NewEmbedBuilder
| GeneratePlayerChart (serverId : string)
| MessageEdit (m : Message) (p : Payload)
| ChannelSend (c : Channel) (p : Payload)
| InteractionReply (p : Payload)
| Log (level : LogLevel) (msg : string).

(** ** World and monad *)

Record World := {
  clock : Z;
  statusMessages : gmap string Message;
  playerHistory : gmap string (list Sample);
  trace : list Event
}.

Definition with_clock (t : Z) (w : World) : World :=
  {| clock := t; statusMessages := statusMessages w;
     playerHistory := playerHistory w; trace := trace w |}.

Definition with_statusMessages (sm : gmap string Message) (w : World) : World :=
  {| clock := clock w; statusMessages := sm;
     playerHistory := playerHistory w; trace := trace w |}.

Definition with_playerHistory (ph : gmap string (list Sample)) (w : World) : World :=
  {| clock := clock w; statusMessages := statusMessages w;
     playerHistory := ph; trace := trace w |}.

Definition with_trace (tr : list Event) (w : World) : World :=
  {| clock := clock w; statusMessages := statusMessages w;
     playerHistory := playerHistory w; trace := tr |}.

Definition M (A : Type) : Type := World → Result A * World.

#[global] Instance M_ret : MRet M := λ A a w, (Ok a, w).

#[global] Instance M_bind : MBind M := λ A B f m w,
  match m w with
  | (Ok a, w') => f a w'
  | (Throw e, w') => (Throw e, w')
  end.

(** [try { body } catch (error) { handler }] *)
Definition try_catch {A} (body : M A) (handler : JsError → M A) : M A := λ w,
  match body w with
  | (Ok a, w') => (Ok a, w')
  | (Throw e, w') => handler e w'
  end.

Definition gets {A} (f : World → A) : M A := λ w, (Ok (f w), w).
Definition modify (f : World → World) : M unit := λ w, (Ok tt, f w).
Definition emit (e : Event) : M unit :=
  modify (λ w, with_trace (trace w ++ [e]) w).

(** The final world and the events added by running [m] from [w]. *)
Definition exec {A} (m : M A) (w : World) : World := (m w).2.
Definition events {A} (m : M A) (w : World) : list Event :=
  drop (length (trace w)) (trace (exec m w)).

(** The settlement of a promise on an external collaborator. *)
Record Awaited (A : Type) := { resumed_at : Z; outcome : Result A }.
Arguments resumed_at {A} _.
Arguments outcome {A} _.

(** [await call]: the call is logged, the function is suspended, and it
    resumes at [resumed_at] with the outcome. *)
Definition await {A} (call : Event) (a : Awaited A) : M A := λ w,
  (outcome a, with_clock (resumed_at a) (with_trace (trace w ++ [call]) w)).

Definition Date_now : M Z := gets clock.

Definition log (level : LogLevel) (msg : string) : M unit := emit (Log level msg).

(** ** HistoryStore: lines 38-69 *)

Definition initializePlayerHistory (serverId : string) : M unit :=
  has ← gets (λ w, bool_decide (is_Some (playerHistory w !! serverId)));
  if negb has
  then modify (λ w, with_playerHistory (<[serverId := []]> (playerHistory w)) w)
  else mret tt.

Definition set_count (playerCount : Z) (s : Sample) : Sample :=
  {| timestamp := timestamp s; count := playerCount |}.

Definition updatePlayerHistory (serverId : string) (playerCount : Z)
    (maxHistory : option Z) : M unit :=
  let maxHistory := default 24 maxHistory in
  emit (UpdatePlayerHistory serverId playerCount);;
  history ← gets (λ w, default [] (playerHistory w !! serverId));
  currentTime ← Date_now;
  if match last history with
     | None => true (* history.length === 0 *)
     | Some newest => 3600000 <=? currentTime - timestamp newest
     end
  then
    (* push, then shift when longer than maxHistory *)
    let history := history ++ [{| timestamp := currentTime; count := playerCount |}] in
    let history :=
      if maxHistory <? Z.of_nat (length history) then tail history else history in
    modify (λ w, with_playerHistory (<[serverId := history]> (playerHistory w)) w)
  else
    (* history[history.length - 1].count = playerCount *)
    let history := alter (set_count playerCount) (length history - 1)%nat history in
    modify (λ w, with_playerHistory (<[serverId := history]> (playerHistory w)) w).

(** ** Collaborators *)

(** The settlements, for one activation of [updateServerStatus] or of the
    command handler, of the promises it awaits. *)
Record Env := {
  channels_fetch : Awaited (option Channel);
  util_status : Awaited StatusResponse;
  message_edit : Awaited unit;
  channel_send : Awaited Message;
  interaction_reply : Awaited unit
}.

Record Interaction := {
  isCommand : bool;
  commandName : string;
  options_server : string
}.

Definition dquote : string := String "034"%char EmptyString.

(** [`${port}`] for a member that may be missing from the configuration. *)
Definition show_port (port : option Z) : string :=
  match port with Some p => pretty p | None => "undefined" end.

(** [x || fallback] on strings: the empty string is falsy. *)
Definition or_else (x fallback : string) : string :=
  if String.eqb x EmptyString then fallback else x.

(** *** The embed builder

    [new EmbedBuilder()] starts from an embed without data ([title] and
    [color] are the empty string until they are set).  The record updates
    below are what the methods of the builder do to its data once they have
    accepted their argument. *)
Definition new_embed : Embed :=
  {| title := EmptyString; color := EmptyString; stamp := None; image := None;
     fields := []; footer := None |}.

Definition with_title (t : string) (e : Embed) : Embed :=
  {| title := t; color := color e; stamp := stamp e; image := image e;
     fields := fields e; footer := footer e |}.

Definition with_color (c : string) (e : Embed) : Embed :=
  {| title := title e; color := c; stamp := stamp e; image := image e;
     fields := fields e; footer := footer e |}.

Definition with_stamp (t : Z) (e : Embed) : Embed :=
  {| title := title e; color := color e; stamp := Some t; image := image e;
     fields := fields e; footer := footer e |}.

Definition with_image (url : string) (e : Embed) : Embed :=
  {| title := title e; color := color e; stamp := stamp e; image := Some url;
     fields := fields e; footer := footer e |}.

Definition with_fields (fs : list Field) (e : Embed) : Embed :=
  {| title := title e; color := color e; stamp := stamp e; image := image e;
     fields := fields e ++ fs; footer := footer e |}.

Definition with_footer (f : Footer) (e : Embed) : Embed :=
  {| title := title e; color := color e; stamp := stamp e; image := image e;
     fields := fields e; footer := Some f |}.

(** The calls of the builder that take data of the configuration or of the
    status response, and that the builder validates. *)
Inductive BuilderCall :=
| SetTitle (title : string)
| SetColor (color : string)
| SetImage (url : string)
| AddFields (fs : list Field)
| SetFooter (f : Footer).

Definition liftR {A} (r : Result A) : M A := λ w, (r, w).

(** The half of an [await] that follows the suspension: the function
    resumes at [resumed_at] with the outcome. *)
Definition settle {A} (a : Awaited A) : M A := λ w,
  (outcome a, with_clock (resumed_at a) w).

(** A delivery that has been called and not yet settled. *)
Inductive Pending :=
| PendingEdit (existingMessage : Message)
| PendingSend (channel : Channel).

Section Bot.

(** [config.json], [String.prototype.toLowerCase], the validation that the
    methods of [EmbedBuilder] run on their argument, the locale-dependent
    [Date.prototype.toLocaleTimeString] and the raster backend
    ([createCanvas], [new Chart], [canvas.toBuffer]) are outside the source
    file.  [validate e call] is the error that [call] throws on a builder
    whose data is [e], if the builder refuses the call. *)
Context (config : Config).
Context (toLowerCase : string → string).
Context (validate : Embed → BuilderCall → option JsError).
Context (toLocaleTimeString : Z → string).
Context (raster : ChartSpec → Result Buffer).

(** A validated call of the builder: it throws, or it updates the data. *)
Definition checked (call : BuilderCall) (e updated : Embed) : M Embed :=
  match validate e call with
  | Some error => liftR (Throw error)
  | None => mret updated
  end.

Definition setTitle (t : string) (e : Embed) : M Embed :=
  checked (SetTitle t) e (with_title t e).

Definition setColor (c : string) (e : Embed) : M Embed :=
  checked (SetColor c) e (with_color c e).

(** [setTimestamp()] takes no argument: the clock is read. *)
Definition setTimestamp (e : Embed) : M Embed :=
  now ← Date_now; mret (with_stamp now e).

Definition setImage (url : string) (e : Embed) : M Embed :=
  checked (SetImage url) e (with_image url e).

Definition addFields (fs : list Field) (e : Embed) : M Embed :=
  checked (AddFields fs) e (with_fields fs e).

Definition setFooter (f : Footer) (e : Embed) : M Embed :=
  checked (SetFooter f) e (with_footer f e).

(** *** ChartRenderer: lines 72-167 *)
Definition generatePlayerChart (serverId : string) (color : option string)
    : M (option Buffer) :=
  let color := default "#3498db" color in
  emit (GeneratePlayerChart serverId);;
  history ← gets (λ w, default [] (playerHistory w !! serverId));
  if bool_decide (length history < 2)%nat then mret None
  else
    let labels := map (λ entry, toLocaleTimeString (timestamp entry)) history in
    let data := map count history in
    buffer ← liftR (raster {| labels := labels; data := data;
                              borderColor := color;
                              backgroundColor := color +:+ "33" |});
    mret (Some buffer).

(** *** StatusProbe: lines 187-205 *)
Definition checkServerStatus (env : Env) (ip : string) (port : option Z) : M Status :=
  let port := default 25565 port in
  try_catch
    (result ← await (UtilStatus ip port) (util_status env);
     mret (Online (players_online result) (players_max result)
                  (version_name result) (motd_clean result)
                  (roundTripLatency result)))
    (λ error,
       log Error ("Failed to check status for " +:+ ip +:+ ":" +:+ pretty port
                  +:+ " - " +:+ message error);;
       mret (Offline (message error))).

(** The chart step shared by the two callers (lines 266-280 and 363-376):
    the image and the attachment are added only when a buffer came back.
    The image is the literal ['attachment://player-chart.png'], which the
    builder accepts. *)
Definition attachChart (serverId : string) (color : option string)
    (embed : Embed) (files : list Attachment) : M (Embed * list Attachment) :=
  try_catch
    (chartBuffer ← generatePlayerChart serverId color;
     match chartBuffer with
     | Some chartBuffer =>
         let attachment :=
           {| attachment := chartBuffer; attachmentName := "player-chart.png" |} in
         mret (with_image "attachment://player-chart.png" embed,
               files ++ [attachment])
     | None => mret (embed, files)
     end)
    (λ error,
       log Error ("Failed to generate player chart: " +:+ message error);;
       mret (embed, files)).

(** The field added when [showNextUpdate] is set (lines 247-254 and
    347-354). *)
Definition nextUpdateField (interval : Z) : M Field :=
  now ← Date_now;
  let nextUpdate := (now + interval) / 1000 in
  mret {| fname := "⏱️ Next Update";
          fvalue := "<t:" +:+ pretty nextUpdate +:+ ":R>"; inline := true |}.

(** *** MessageReconciler: lines 282-293

    The function is suspended between the call of [edit] or [send] and its
    settlement; the two halves are [reconcile_call] (the lookup of line 282
    and the call of line 285 or 287) and [reconcile_resume] (what follows
    the settlement). *)
Definition reconcile_call (serverConfig : ServerConfig) (channel : Channel)
    (payload : Payload) : M Pending :=
  existingMessage ← gets (λ w, statusMessages w !! channelId serverConfig);
  match existingMessage with
  | Some existingMessage =>
      emit (MessageEdit existingMessage payload);;
      mret (PendingEdit existingMessage)
  | None =>
      emit (ChannelSend channel payload);;
      mret (PendingSend channel)
  end.

Definition reconcile_resume (env : Env) (serverConfig : ServerConfig)
    (pending : Pending) : M unit :=
  try_catch
    (match pending with
     | PendingEdit _ => settle (message_edit env)
     | PendingSend _ =>
         message ← settle (channel_send env);
         modify (λ w, with_statusMessages
                   (<[channelId serverConfig := message]> (statusMessages w)) w)
     end;;
     log Info ("Updated status for " +:+ name serverConfig))
    (λ error,
       log Error ("Failed to update status message for " +:+ name serverConfig
                  +:+ " - " +:+ message error)).

(** *** One tick: lines 207-294

    The calls of the builder (lines 222-261) are outside any [try]: an
    error thrown by one of them ends the tick. *)
Definition updateServerStatus (env : Env) (serverConfig : ServerConfig) : M unit :=
  channel ← try_catch
    (await (ChannelsFetch (channelId serverConfig)) (channels_fetch env))
    (λ _, mret None);
  match channel with
  | None =>
      log Error ("Channel " +:+ channelId serverConfig +:+ " not found for server "
                 +:+ name serverConfig)
  | Some channel =>
      status ← checkServerStatus env (ip serverConfig) (port serverConfig);
      match status with
      | Online players _ _ _ _ =>
          initializePlayerHistory (channelId serverConfig);;
          updatePlayerHistory (channelId serverConfig) players
            (historyHours (chart (display serverConfig)))
      | Offline _ => mret tt
      end;;
      emit NewEmbedBuilder;;
      embed ← setTitle (embed_title (config_embed config)) new_embed;
      embed ← setColor (if online status then colors_online (config_embed config)
                        else colors_offline (config_embed config)) embed;
      embed ← setTimestamp embed;
      embed ←
        (if String.eqb (display_type (display serverConfig)) "banner"
            && banner_enabled (banner (display serverConfig))
         then setImage (banner_url (banner (display serverConfig))) embed
         else mret embed);
      embed ← addFields
        [ {| fname := "📡 Server";
             fvalue := name serverConfig +:+ " (" +:+ ip serverConfig +:+ ":"
                       +:+ show_port (port serverConfig) +:+ ")";
             inline := true |};
          {| fname := "🔌 Status";
             fvalue := if online status then "✅ Online" else "❌ Offline";
             inline := true |} ] embed;
      embed ← match status with
        | Online players maxPlayers version description ping =>
            embed ← addFields
              [ {| fname := "👥 Players";
                   fvalue := pretty players +:+ "/" +:+ pretty maxPlayers;
                   inline := true |};
                {| fname := "🏷️ Version"; fvalue := version; inline := true |};
                {| fname := "📊 Ping"; fvalue := pretty ping +:+ "ms";
                   inline := true |};
                {| fname := "📝 MOTD";
                   fvalue := or_else description "No description available";
                   inline := false |} ] embed;
            if showNextUpdate (display serverConfig)
            then f ← nextUpdateField (updateInterval serverConfig);
                 addFields [f] embed
            else mret embed
        | Offline error =>
            addFields
              [ {| fname := "❌ Error";
                   fvalue := or_else error "Could not connect to server";
                   inline := false |} ] embed
        end;
      embed ← setFooter (embed_footer (config_embed config)) embed;
      let files := [] in
      '(embed, files) ←
        (if String.eqb (display_type (display serverConfig)) "chart"
            && chart_enabled (chart (display serverConfig))
            && online status
         then attachChart (channelId serverConfig)
                (chart_color (chart (display serverConfig))) embed files
         else mret (embed, files));
      let payload :=
        {| content := None; embeds := [embed]; files := files;
           ephemeral := false |} in
      pending ← reconcile_call serverConfig channel payload;
      reconcile_resume env serverConfig pending
  end.

(** *** The [status] command: lines 317-387

    Here too the calls of the builder (lines 333-360 and 378) are outside
    any [try]: an error thrown by one of them rejects the handler before the
    reply. *)
Definition interactionCreate (env : Env) (interaction : Interaction) : M unit :=
  if negb (isCommand interaction) then mret tt
  else if String.eqb (commandName interaction) "status" then
    let serverName := options_server interaction in
    let server :=
      List.find (λ s, String.eqb (toLowerCase (name s)) (toLowerCase serverName))
                (minecraft_servers config) in
    match server with
    | None =>
        await (InteractionReply
                 {| content := Some ("Server " +:+ dquote +:+ serverName +:+ dquote
                                     +:+ " not found in configuration!");
                    embeds := []; files := []; ephemeral := true |})
              (interaction_reply env)
    | Some server =>
        status ← checkServerStatus env (ip server) (port server);
        emit NewEmbedBuilder;;
        embed ← setTitle (name server +:+ " Status") new_embed;
        embed ← setColor (if online status then colors_online (config_embed config)
                          else colors_offline (config_embed config)) embed;
        embed ← setTimestamp embed;
        embed ← setFooter (embed_footer (config_embed config)) embed;
        embed ← match status with
          | Online players maxPlayers version _ ping =>
              embed ← addFields
                [ {| fname := "🔌 Status"; fvalue := "✅ Online"; inline := true |};
                  {| fname := "👥 Players";
                     fvalue := pretty players +:+ "/" +:+ pretty maxPlayers;
                     inline := true |};
                  {| fname := "📊 Ping"; fvalue := pretty ping +:+ "ms";
                     inline := true |};
                  {| fname := "🏷️ Version"; fvalue := version;
                     inline := false |} ] embed;
              if showNextUpdate (display server)
              then f ← nextUpdateField (updateInterval server);
                   addFields [f] embed
              else mret embed
          | Offline error =>
              addFields
                [ {| fname := "🔌 Status"; fvalue := "❌ Offline"; inline := true |};
                  {| fname := "❌ Error";
                     fvalue := or_else error "Could not connect to server";
                     inline := false |} ] embed
          end;
        let files := [] in
        '(embed, files) ←
          (if String.eqb (display_type (display server)) "chart"
              && chart_enabled (chart (display server))
              && online status
           then attachChart (channelId server)
                  (chart_color (chart (display server))) embed files
           else if String.eqb (display_type (display server)) "banner"
                   && banner_enabled (banner (display server))
           then embed ← setImage (banner_url (banner (display server))) embed;
                mret (embed, files)
           else mret (embed, files));
        await (InteractionReply
                 {| content := None; embeds := [embed]; files := files;
                    ephemeral := true |})
              (interaction_reply env)
    end
  else mret tt.

(** Two reconciles for one or two destinations that overlap: both calls are
    made before either settles, as happens when the timer fires a tick
    (lines 306 and 309, not awaited) while the delivery of the previous one
    is pending. *)
Definition reconcile_overlapped
    (envA : Env) (serverA : ServerConfig) (channelA : Channel) (payloadA : Payload)
    (envB : Env) (serverB : ServerConfig) (channelB : Channel) (payloadB : Payload)
    : M unit :=
  pendingA ← reconcile_call serverA channelA payloadA;
  pendingB ← reconcile_call serverB channelB payloadB;
  reconcile_resume envA serverA pendingA;;
  reconcile_resume envB serverB pendingB.

(** The settlements of any number of deliveries, in the order in which
    they settle.  What follows an await runs to its end before any other
    code runs, and these are the only writes to [statusMessages] in the
    program. *)
Definition resume_all (settlements : list (Env * ServerConfig * Pending))
    (w : World) : World :=
  foldl (λ w r, exec (reconcile_resume r.1.1 r.1.2 r.2) w) w settlements.

End Bot.

(** ** Scheduler: lines 296-314

    [updateIntervals] maps a channel id to the handle that [setInterval]
    returned for it.  [scheduled] is the runtime's table of repeating
    timers: a live handle is mapped to the server whose tick its callback
    runs, every [updateInterval] of that server.  [setInterval] returns a
    handle that was never returned before, [clearInterval] stops the timer
    of a handle.  The immediate [updateServerStatus(server)] of the loop is
    started and not awaited: it is recorded as [LaunchTick]. *)
Record Timers := {
  updateIntervals : gmap string nat;
  scheduled : gmap nat ServerConfig;
  next_handle : nat
}.

Inductive Startup :=
| LaunchTick (server : ServerConfig)
| LogInfo (msg : string).

Definition clearInterval (interval : nat) (t : Timers) : Timers :=
  {| updateIntervals := updateIntervals t;
     scheduled := delete interval (scheduled t);
     next_handle := next_handle t |}.

Definition setInterval (server : ServerConfig) (t : Timers) : nat * Timers :=
  (next_handle t,
   {| updateIntervals := updateIntervals t;
      scheduled := <[next_handle t := server]> (scheduled t);
      next_handle := S (next_handle t) |}).

(** The body of the loop over the configured servers (lines 304-313). *)
Definition startServer (acc : Timers * list Startup) (server : ServerConfig)
    : Timers * list Startup :=
  let '(interval, t) := setInterval server acc.1 in
  ({| updateIntervals := <[channelId server := interval]> (updateIntervals t);
      scheduled := scheduled t;
      next_handle := next_handle t |},
   acc.2 ++ [LaunchTick server;
             LogInfo ("Initialized status updates for " +:+ name server +:+ " ("
                      +:+ ip server +:+ ":" +:+ show_port (port server) +:+ ")")]).

Definition initializeStatusUpdates (config : Config) (t : Timers)
    : Timers * list Startup :=
  let t := foldr (λ entry t, clearInterval entry.2 t) t
                 (map_to_list (updateIntervals t)) in
  let t := {| updateIntervals := ∅; scheduled := scheduled t;
              next_handle := next_handle t |} in
  foldl startServer (t, []) (minecraft_servers config).

(** ** Vocabulary of the properties *)

(** [snapshot]: the series stored for a channel id, empty when absent. *)
Definition series (w : World) (serverId : string) : list Sample :=
  default [] (playerHistory w !! serverId).

(** An observation is a clock reading paired with a player count;
    [record_at] is one call of [updatePlayerHistory] made at that reading. *)
Definition sample_of (obs : Z * Z) : Sample :=
  {| timestamp := obs.1; count := obs.2 |}.

Definition record_at (serverId : string) (maxHistory : option Z)
    (w : World) (obs : Z * Z) : World :=
  exec (updatePlayerHistory serverId obs.2 maxHistory) (with_clock obs.1 w).

Definition record_all (serverId : string) (maxHistory : option Z)
    (obs : list (Z * Z)) (w : World) : World :=
  foldl (record_at serverId maxHistory) w obs.

(** Observations at least one sampling interval apart, the first one at
    least one interval after [prev] when there is a [prev]. *)
Fixpoint spaced_after (prev : option Z) (obs : list (Z * Z)) : Prop :=
  match obs with
  | [] => True
  | o :: rest =>
      match prev with None => True | Some p => 3600000 ≤ o.1 - p end
      ∧ spaced_after (Some o.1) rest
  end.

(** Consecutive samples at least one sampling interval apart. *)
Fixpoint spaced (h : list Sample) : Prop :=
  match h with
  | a :: (b :: _) as rest => 3600000 ≤ timestamp b - timestamp a ∧ spaced rest
  | _ => True
  end.

Definition all_spaced (ph : gmap string (list Sample)) : Prop :=
  ∀ serverId h, ph !! serverId = Some h → spaced h.

(** The history maps that the two writers of [playerHistory] can produce
    from the empty map, at any clock readings and with any arguments. *)
Inductive reachable : gmap string (list Sample) → Prop :=
| reachable_empty : reachable ∅
| reachable_initialize w serverId :
    reachable (playerHistory w) →
    reachable (playerHistory (exec (initializePlayerHistory serverId) w))
| reachable_update w serverId playerCount maxHistory :
    reachable (playerHistory w) →
    reachable (playerHistory
                 (exec (updatePlayerHistory serverId playerCount maxHistory) w)).

(** The steps of the pipeline, as seen in the trace. *)
Inductive Step :=
| StResolve | StProbe | StRecord | StBuild | StRender | StDeliver | StReply.

#[global] Instance Step_eq_dec : EqDecision Step.
Proof. solve_decision. Defined.

Definition step_of (e : Event) : option Step :=
  match e with
  | ChannelsFetch _ => Some StResolve
  | UtilStatus _ _ => Some StProbe
  | UpdatePlayerHistory _ _ => Some StRecord
  | NewEmbedBuilder => Some StBuild
  | GeneratePlayerChart _ => Some StRender
  | MessageEdit _ _ | ChannelSend _ _ => Some StDeliver
  | InteractionReply _ => Some StReply
  | Log _ _ => None
  end.

Definition steps (tr : list Event) : list Step := omap step_of tr.

(** [occurs_before s t tr]: step [s] occurs in [tr], and no step [t]
    occurs before its first occurrence. *)
Fixpoint occurs_before (s t : Step) (tr : list Step) : bool :=
  match tr with
  | [] => false
  | x :: tr' =>
      if bool_decide (x = s) then true
      else if bool_decide (x = t) then false
      else occurs_before s t tr'
  end.

(** What the environment of one activation decides. *)
Definition resolved (env : Env) : option Channel :=
  match outcome (channels_fetch env) with Ok c => c | Throw _ => None end.

Definition probe_online (env : Env) : bool :=
  match outcome (util_status env) with Ok _ => true | Throw _ => false end.

Definition chart_mode (s : ServerConfig) : bool :=
  String.eqb (display_type (display s)) "chart"
  && chart_enabled (chart (display s)).

(** Letter case on the ASCII letters: [toLowerCase_ascii] lowers the
    letters A to Z and leaves every other code unit as it is, which is what
    [String.prototype.toLowerCase] does on a string of ASCII characters;
    [same_ignoring_case] is equality up to the case of these letters, stated
    without lowering. *)
Definition toLower (c : ascii) : ascii :=
  let n := nat_of_ascii c in
  if ((65 <=? n) && (n <=? 90))%nat then ascii_of_nat (n + 32) else c.

Fixpoint toLowerCase_ascii (s : string) : string :=
  match s with
  | EmptyString => EmptyString
  | String c s' => String (toLower c) (toLowerCase_ascii s')
  end.

Definition is_upper (c : ascii) : bool :=
  ((65 <=? nat_of_ascii c) && (nat_of_ascii c <=? 90))%nat.

Definition same_letter (a b : ascii) : Prop :=
  a = b
  ∨ (is_upper a = true ∧ nat_of_ascii b = (nat_of_ascii a + 32)%nat)
  ∨ (is_upper b = true ∧ nat_of_ascii a = (nat_of_ascii b + 32)%nat).

Fixpoint same_ignoring_case (a b : string) : Prop :=
  match a, b with
  | EmptyString, EmptyString => True
  | String x a', String y b' => same_letter x y ∧ same_ignoring_case a' b'
  | _, _ => False
  end.

(** A builder that accepts every call, and one that refuses what
    discord.js refuses in a field (a name or a value that is empty, a name
    over 256 or a value over 1024 characters, more than 25 fields) and a
    footer that is not an object. *)
Definition accept_all (e : Embed) (call : BuilderCall) : option JsError := None.

Definition field_ok (f : Field) : bool :=
  bool_decide (1 ≤ String.length (fname f) ≤ 256)%nat
  && bool_decide (1 ≤ String.length (fvalue f) ≤ 1024)%nat.

Definition example_validate (e : Embed) (call : BuilderCall) : option JsError :=
  match call with
  | AddFields fs =>
      if forallb field_ok fs && bool_decide (length (fields e ++ fs) ≤ 25)%nat
      then None
      else Some {| message := "Received one or more errors" |}
  | SetFooter (FooterText _) => Some {| message := "Expected an object" |}
  | _ => None
  end.

(** The delivery attempts in a trace: an edit of a stored message or a
    send to a channel. *)
Definition delivery_of (e : Event) : option (Message + Channel) :=
  match e with
  | MessageEdit m _ => Some (inl m)
  | ChannelSend c _ => Some (inr c)
  | _ => None
  end.

Definition deliveries (tr : list Event) : list (Message + Channel) :=
  omap delivery_of tr.

(** The payloads delivered in a trace, and the field values of their
    embeds. *)
Definition payload_of (e : Event) : option Payload :=
  match e with
  | MessageEdit _ p | ChannelSend _ p | InteractionReply p => Some p
  | _ => None
  end.

Definition field_values (tr : list Event) : list string :=
  p ← omap payload_of tr; e ← embeds p; fvalue <$> fields e.

(** The history map that [initializePlayerHistory] and
    [updatePlayerHistory] leave, and the result of [generatePlayerChart], as
    functions of the history map (and of the clock reading): the embedded
    functions run on a world that holds nothing else. *)
Definition bare_world (now : Z) (ph : gmap string (list Sample)) : World :=
  {| clock := now; statusMessages := ∅; playerHistory := ph; trace := [] |}.

Definition initialized (serverId : string) (ph : gmap string (list Sample))
    : gmap string (list Sample) :=
  playerHistory (exec (initializePlayerHistory serverId) (bare_world 0 ph)).

Definition recorded (now : Z) (serverId : string) (playerCount : Z)
    (maxHistory : option Z) (ph : gmap string (list Sample))
    : gmap string (list Sample) :=
  playerHistory
    (exec (updatePlayerHistory serverId playerCount maxHistory) (bare_world now ph)).

Definition rendered (toLocaleTimeString : Z → string)
    (raster : ChartSpec → Result Buffer) (serverId : string)
    (color : option string) (ph : gmap string (list Sample))
    : Result (option Buffer) :=
  (generatePlayerChart toLocaleTimeString raster serverId color (bare_world 0 ph)).1.

(** The attachment that carries a chart, and the image of an embed that
    shows it. *)
Definition chart_attachment (chartBuffer : Buffer) : Attachment :=
  {| attachment := chartBuffer; attachmentName := "player-chart.png" |}.

(** The timers started so far are older than the next handle, and every
    live timer is registered in [updateIntervals]. *)
Definition timers_wf (t : Timers) : Prop :=
  (∀ k h, updateIntervals t !! k = Some h → h < next_handle t)%nat
  ∧ (∀ h, is_Some (scheduled t !! h) → h < next_handle t)%nat.

Definition all_registered (t : Timers) : Prop :=
  ∀ h, is_Some (scheduled t !! h) → ∃ k, updateIntervals t !! k = Some h.

Definition launched (out : list Startup) : list ServerConfig :=
  omap (λ e, match e with LaunchTick s => Some s | LogInfo _ => None end) out.

Definition no_timers : Timers :=
  {| updateIntervals := ∅; scheduled := ∅; next_handle := 0 |}.

(** Concrete inputs used by the examples. *)
Definition example_server : ServerConfig :=
  {| name := "Survival"; ip := "mc.example.org"; port := Some 25565;
     channelId := "42"; updateInterval := 60000;
     display := {| display_type := "chart";
                   banner := {| banner_enabled := false; banner_url := "banner.png" |};
                   chart := {| chart_enabled := true; chart_color := None;
                               historyHours := Some 24 |};
                   showNextUpdate := true |} |}.

Definition example_config : Config :=
  {| config_embed := {| embed_title := "Server Status"; colors_online := "#00ff00";
                        colors_offline := "#ff0000";
                        embed_footer := FooterOptions "Team BLK" None |};
     minecraft_servers := [example_server] |}.

(** The same configuration with a footer that is a string. *)
Definition text_footer_config : Config :=
  {| config_embed := {| embed_title := "Server Status"; colors_online := "#00ff00";
                        colors_offline := "#ff0000";
                        embed_footer := FooterText "Team BLK" |};
     minecraft_servers := [example_server] |}.

Definition example_world : World :=
  {| clock := 0; statusMessages := ∅; playerHistory := ∅; trace := [] |}.

Definition two_sample_world : World :=
  with_playerHistory
    {[ "42" := [{| timestamp := 0; count := 8 |};
                {| timestamp := 7200000; count := 3 |}] ]}
    (with_clock 7800000 example_world).

Definition example_response : StatusResponse :=
  {| players_online := 5; players_max := 20; version_name := "1.20.4";
     motd_clean := "Welcome"; roundTripLatency := 33 |}.

Definition example_env : Env :=
  {| channels_fetch := {| resumed_at := 5; outcome := Ok (Some {| channelRef := "42" |}) |};
     util_status := {| resumed_at := 10; outcome := Ok example_response |};
     message_edit := {| resumed_at := 20; outcome := Ok tt |};
     channel_send := {| resumed_at := 20; outcome := Ok {| messageId := "m1" |} |};
     interaction_reply := {| resumed_at := 20; outcome := Ok tt |} |}.

Definition offline_env : Env :=
  {| channels_fetch := channels_fetch example_env;
     util_status := {| resumed_at := 5010;
                       outcome := Throw {| message := "Socket timed out" |} |};
     message_edit := message_edit example_env;
     channel_send := channel_send example_env;
     interaction_reply := interaction_reply example_env |}.

Definition unresolved_env : Env :=
  {| channels_fetch := {| resumed_at := 5;
                          outcome := Throw {| message := "Unknown Channel" |} |};
     util_status := util_status example_env;
     message_edit := message_edit example_env;
     channel_send := channel_send example_env;
     interaction_reply := interaction_reply example_env |}.

(** The status query answers with an empty version name. *)
Definition empty_version_env : Env :=
  {| channels_fetch := channels_fetch example_env;
     util_status := {| resumed_at := 10;
                       outcome := Ok {| players_online := 5; players_max := 20;
                                        version_name := EmptyString;
                                        motd_clean := "Welcome";
                                        roundTripLatency := 33 |} |};
     message_edit := message_edit example_env;
     channel_send := channel_send example_env;
     interaction_reply := interaction_reply example_env |}.

(** The edit is rejected; a send, if there were one, would return a new
    message. *)
Definition failing_edit_env : Env :=
  {| channels_fetch := channels_fetch example_env;
     util_status := util_status example_env;
     message_edit := {| resumed_at := 20;
                        outcome := Throw {| message := "Unknown Message" |} |};
     channel_send := {| resumed_at := 20; outcome := Ok {| messageId := "m2" |} |};
     interaction_reply := interaction_reply example_env |}.

(** A world in which the message [m1] is stored for channel 42. *)
Definition stored_world : World :=
  with_statusMessages {[ "42" := {| messageId := "m1" |} ]} two_sample_world.

Definition example_raster (c : ChartSpec) : Result Buffer :=
  Ok [Byte.x89; Byte.x50; Byte.x4e; Byte.x47].

Definition example_labels (t : Z) : string := pretty t.

Definition status_interaction : Interaction :=
  {| isCommand := true; commandName := "status"; options_server := "SURVIVAL" |}.

Definition unknown_interaction : Interaction :=
  {| isCommand := true; commandName := "status"; options_server := "creative" |}.

(** The reply of the status command for [status_interaction] in
    [two_sample_world]. *)
Definition example_reply : Payload :=
  Eval vm_compute in
    match last (events (interactionCreate example_config toLowerCase_ascii
                          example_validate example_labels example_raster
                          example_env status_interaction)
                       two_sample_world) with
    | Some (InteractionReply p) => p
    | _ => {| content := None; embeds := []; files := []; ephemeral := false |}
    end.

(** The payload delivered by a tick for [example_server] in
    [two_sample_world]. *)
Definition example_tick_payload : Payload :=
  Eval vm_compute in
    match omap payload_of
            (events (updateServerStatus example_config example_validate
                       example_labels example_raster example_env example_server)
                    two_sample_world) with
    | p :: _ => p
    | [] => {| content := None; embeds := []; files := []; ephemeral := false |}
    end.

Definition ignored_interaction : Interaction :=
  {| isCommand := true; commandName := "help"; options_server := "Survival" |}.

(** The timers after a first initialisation. *)
Definition example_timers : Timers :=
  (initializeStatusUpdates example_config no_timers).1.

(** * Properties *)

(** Symbolic execution: unfold the monad and compute the projections of
    the worlds built on the way. *)
Ltac world_simpl :=
  cbn [trace clock playerHistory statusMessages fst snd with_trace with_clock
       with_playerHistory with_statusMessages outcome resumed_at
       channels_fetch util_status message_edit channel_send interaction_reply]
    in *.

Ltac run_monad :=
  cbv [exec events mbind mret M_bind M_ret try_catch gets modify emit log await
       Date_now liftR];
  world_simpl.

(** ** HistoryStore *)

Lemma update_coalesces serverId playerCount maxHistory w older newest :
  series w serverId = older ++ [newest] →
  clock w - timestamp newest < 3600000 →
  playerHistory (exec (updatePlayerHistory serverId playerCount maxHistory) w)
  = <[serverId := older ++ [set_count playerCount newest]]> (playerHistory w).
Proof.
  intros Hs Hlt. unfold updatePlayerHistory, series in *.
  destruct w as [t sm ph tr]. run_monad. rewrite Hs, last_snoc.
  destruct (Z.leb_spec 3600000 (t - timestamp newest)); [lia|].
  f_equal. rewrite length_app. simpl.
  replace (length older + 1 - 1)%nat with (length older + 0)%nat by lia.
  by rewrite alter_app_r.
Qed.

Lemma update_appends serverId playerCount maxHistory w :
  match last (series w serverId) with
  | None => True
  | Some newest => 3600000 ≤ clock w - timestamp newest
  end →
  playerHistory (exec (updatePlayerHistory serverId playerCount maxHistory) w)
  = <[serverId :=
        let h := series w serverId
                 ++ [{| timestamp := clock w; count := playerCount |}] in
        if default 24 maxHistory <? Z.of_nat (length h) then tail h else h]>
      (playerHistory w).
Proof.
  intros Hl. unfold updatePlayerHistory, series in *.
  destruct w as [t sm ph tr]. run_monad.
  destruct (last (default [] (ph !! serverId))) as [newest|]; [|done].
  destruct (Z.leb_spec 3600000 (t - timestamp newest)); [done|lia].
Qed.

(** C1. A record call on a series whose newest sample is less than one
    sampling interval (3600000 ms) older than the current time keeps the
    length of the series, overwrites the count of the newest sample with the
    new observation, and leaves the older samples, every timestamp and the
    series of the other channels as they were. *)
Theorem record_within_interval_coalesces
    serverId playerCount maxHistory w older newest :
  playerHistory w !! serverId = Some (older ++ [newest]) →
  clock w - timestamp newest < 3600000 →
  let w' := exec (updatePlayerHistory serverId playerCount maxHistory) w in
  playerHistory w' !! serverId
    = Some (older ++ [{| timestamp := timestamp newest; count := playerCount |}])
  ∧ length (series w' serverId) = length (series w serverId)
  ∧ timestamp <$> series w' serverId = timestamp <$> series w serverId
  ∧ (∀ other, other ≠ serverId →
       playerHistory w' !! other = playerHistory w !! other).
Proof.
  intros Hs Hlt w'.
  assert (Hser : series w serverId = older ++ [newest])
    by (unfold series; by rewrite Hs).
  assert (Hph := update_coalesces serverId playerCount maxHistory w older newest
                   Hser Hlt).
  fold w' in Hph. unfold series. rewrite Hph, Hs, lookup_insert_eq. simpl.
  split_and!.
  - done.
  - by rewrite !length_app.
  - by rewrite !fmap_app.
  - intros other Hne. by rewrite lookup_insert_ne.
Qed.

Lemma record_within_interval_coalesces_witness :
  let w := with_clock 600000
             (with_playerHistory {[ "42" := [{| timestamp := 0; count := 5 |}] ]}
                example_world) in
  playerHistory w !! "42" = Some ([] ++ [{| timestamp := 0; count := 5 |}])
  ∧ clock w - 0 < 3600000
  ∧ playerHistory (exec (updatePlayerHistory "42" 8 (Some 24)) w) !! "42"
    = Some [{| timestamp := 0; count := 8 |}].
Proof.
  intros w.
  assert (H1 : playerHistory w !! "42"
               = Some ([] ++ [{| timestamp := 0; count := 5 |}]))
    by reflexivity.
  assert (H2 : clock w - timestamp {| timestamp := 0; count := 5 |} < 3600000)
    by (vm_compute; reflexivity).
  split; [exact H1|]. split; [exact H2|].
  exact (proj1 (record_within_interval_coalesces "42" 8 (Some 24) w [] _ H1 H2)).
Defined.

Lemma tail_drop {A} (l : list A) k : tail (drop k l) = drop (S k) l.
Proof.
  revert k. induction l as [|a l IH]; intros [|k]; simpl; done.
Qed.

(** Appending to the last [cap] elements and evicting the head when the
    capacity is exceeded yields the last [cap] elements of the longer list. *)
Lemma fifo_step {A} (cap : Z) (all : list A) (s : A) :
  0 ≤ cap →
  (let h := drop (length all - Z.to_nat cap) all ++ [s] in
   if cap <? Z.of_nat (length h) then tail h else h)
  = drop (length (all ++ [s]) - Z.to_nat cap) (all ++ [s]).
Proof.
  intros Hcap. cbv zeta. rewrite !length_app, length_drop. simpl.
  destruct (Z.ltb_spec cap
              (Z.of_nat (length all - (length all - Z.to_nat cap) + 1))) as [Hlt|Hge].
  - rewrite <- drop_app_le by lia. rewrite tail_drop. f_equal. lia.
  - replace (length all - Z.to_nat cap)%nat with 0%nat by lia.
    replace (length all + 1 - Z.to_nat cap)%nat with 0%nat by lia.
    by rewrite !drop_0.
Qed.

Lemma series_with_clock t w serverId : series (with_clock t w) serverId = series w serverId.
Proof. done. Qed.

Lemma series_insert ph w serverId h :
  playerHistory w = <[serverId := h]> ph → series w serverId = h.
Proof. intros E. unfold series. by rewrite E, lookup_insert_eq. Qed.

Lemma spaced_after_weaken prev obs : spaced_after prev obs → spaced_after None obs.
Proof. destruct obs; simpl; [done|]. intros [_ ?]. done. Qed.

Lemma last_drop_snoc {A} (l : list A) (s : A) k :
  last (drop k (l ++ [s])) = None ∨ last (drop k (l ++ [s])) = Some s.
Proof.
  destruct (decide (k ≤ length l)%nat) as [Hle|Hgt].
  - right. rewrite drop_app_le by done. apply last_snoc.
  - left. rewrite drop_ge; [done|]. rewrite length_app. simpl. lia.
Qed.

Lemma record_all_fifo serverId maxHistory obs : ∀ w all,
  0 ≤ default 24 maxHistory →
  series w serverId = drop (length all - Z.to_nat (default 24 maxHistory)) all →
  spaced_after (timestamp <$> last (series w serverId)) obs →
  series (record_all serverId maxHistory obs w) serverId
  = drop (length (all ++ (sample_of <$> obs)) - Z.to_nat (default 24 maxHistory))
         (all ++ (sample_of <$> obs)).
Proof.
  induction obs as [|o rest IH]; intros w all Hcap Hser Hsp.
  - simpl. by rewrite app_nil_r.
  - simpl in Hsp. destruct Hsp as [Hfirst Hrest].
    change (record_all serverId maxHistory (o :: rest) w)
      with (record_all serverId maxHistory rest (record_at serverId maxHistory w o)).
    assert (Hstep : series (record_at serverId maxHistory w o) serverId
                    = drop (length (all ++ [sample_of o])
                            - Z.to_nat (default 24 maxHistory))
                           (all ++ [sample_of o])).
    { unfold record_at. erewrite series_insert; last first.
      { apply update_appends. rewrite series_with_clock. simpl.
        destruct (last (series w serverId)); simpl in *; done. }
      rewrite series_with_clock, Hser. simpl.
      by apply (fifo_step (default 24 maxHistory) all (sample_of o)). }
    rewrite fmap_cons, (cons_middle (sample_of o)), app_assoc.
    apply IH; [done|done|]. rewrite Hstep.
    destruct (last_drop_snoc all (sample_of o)
                (length (all ++ [sample_of o])
                 - Z.to_nat (default 24 maxHistory))) as [-> | ->]; simpl.
    + by eapply spaced_after_weaken.
    + done.
Qed.

(** C2. Record calls on one channel id whose observations are at least one
    sampling interval apart each append one sample: the series is the last
    [capacity] elements of the old series followed by the observations in
    order, so its length grows by one per call up to the capacity and then
    stays there, the oldest sample leaving first. *)
Theorem record_spaced_fifo serverId maxHistory obs w :
  0 ≤ default 24 maxHistory →
  Z.of_nat (length (series w serverId)) ≤ default 24 maxHistory →
  spaced_after (timestamp <$> last (series w serverId)) obs →
  series (record_all serverId maxHistory obs w) serverId
  = drop (length (series w serverId ++ (sample_of <$> obs))
          - Z.to_nat (default 24 maxHistory))
         (series w serverId ++ (sample_of <$> obs))
  ∧ Z.of_nat (length (series (record_all serverId maxHistory obs w) serverId))
    = Z.min (Z.of_nat (length (series w serverId)) + Z.of_nat (length obs))
            (default 24 maxHistory).
Proof.
  intros Hcap Hlen Hsp.
  assert (H := record_all_fifo serverId maxHistory obs w (series w serverId) Hcap).
  rewrite H; [|by replace (length (series w serverId)
                           - Z.to_nat (default (24 : Z) maxHistory))%nat
                     with 0%nat by lia
              |done].
  split; [done|].
  rewrite length_drop, length_app, length_fmap. lia.
Qed.

Lemma record_spaced_fifo_witness :
  let obs := [(0, 5); (3600000, 8); (7200000, 3)] in
  0 ≤ 2
  ∧ spaced_after None obs
  ∧ series (record_all "42" (Some 2) obs example_world) "42"
    = [{| timestamp := 3600000; count := 8 |}; {| timestamp := 7200000; count := 3 |}].
Proof.
  intros obs.
  assert (H1 : 0 ≤ default 24 (Some 2)) by (simpl; lia).
  assert (H2 : Z.of_nat (length (series example_world "42")) ≤ default 24 (Some 2))
    by (vm_compute; discriminate).
  assert (H3 : spaced_after (timestamp <$> last (series example_world "42")) obs)
    by (vm_compute; repeat split; discriminate).
  split; [exact H1|]. split; [exact H3|].
  exact (proj1 (record_spaced_fifo "42" (Some 2) obs example_world H1 H2 H3)).
Defined.

Lemma spaced_cons2 a b h :
  spaced (a :: b :: h) ↔ 3600000 ≤ timestamp b - timestamp a ∧ spaced (b :: h).
Proof. done. Qed.

(** Spacing is a property of the timestamps alone. *)
Lemma spaced_timestamps h h' :
  timestamp <$> h = timestamp <$> h' → spaced h → spaced h'.
Proof.
  revert h'. induction h as [|a h IH]; intros [|a' h'] E Hs; try done.
  rewrite !fmap_cons in E. injection E as Ea Eh.
  destruct h as [|b h], h' as [|b' h']; try done.
  apply spaced_cons2 in Hs as [Hab Hs]. apply spaced_cons2.
  rewrite !fmap_cons in Eh. split; [|by apply IH].
  injection Eh as Eb _. congruence.
Qed.

Lemma spaced_tail h : spaced h → spaced (tail h).
Proof.
  destruct h as [|a [|b h]]; try done. intros [_ ?]%spaced_cons2. done.
Qed.

Lemma spaced_snoc h s :
  spaced h →
  match last h with
  | None => True
  | Some newest => 3600000 ≤ timestamp s - timestamp newest
  end →
  spaced (h ++ [s]).
Proof.
  induction h as [|a h IH]; intros Hs Hl; [done|].
  destruct h as [|b h].
  - simpl in *. done.
  - apply spaced_cons2 in Hs as [Hab Hs].
    change ((a :: b :: h) ++ [s]) with (a :: b :: (h ++ [s])).
    apply spaced_cons2. split; [done|]. by apply IH.
Qed.

Lemma all_spaced_insert ph serverId h :
  all_spaced ph → spaced h → all_spaced (<[serverId := h]> ph).
Proof.
  intros Hall Hh id h'. destruct (decide (serverId = id)) as [->|Hne].
  - rewrite lookup_insert_eq. by intros [= <-].
  - rewrite lookup_insert_ne by done. apply Hall.
Qed.

Lemma series_spaced w serverId : all_spaced (playerHistory w) → spaced (series w serverId).
Proof.
  intros Hall. unfold series.
  destruct (playerHistory w !! serverId) as [h|] eqn:E; simpl; [by eapply Hall|done].
Qed.

Lemma initialize_keeps_spacing serverId w :
  all_spaced (playerHistory w) →
  all_spaced (playerHistory (exec (initializePlayerHistory serverId) w)).
Proof.
  intros Hall. unfold initializePlayerHistory. destruct w as [t sm ph tr].
  run_monad. case_bool_decide; world_simpl; [done|].
  by apply all_spaced_insert.
Qed.

(** Every record call keeps the spacing of every series. *)
Lemma update_keeps_spacing serverId playerCount maxHistory w :
  all_spaced (playerHistory w) →
  all_spaced (playerHistory
                (exec (updatePlayerHistory serverId playerCount maxHistory) w)).
Proof.
  intros Hall. assert (Hs := series_spaced w serverId Hall).
  destruct (last (series w serverId)) as [newest|] eqn:El.
  - destruct (Z.lt_ge_cases (clock w - timestamp newest) 3600000) as [Hlt|Hge].
    + apply last_Some in El as [older Eo].
      rewrite (update_coalesces _ _ _ _ older newest Eo Hlt).
      apply all_spaced_insert; [done|].
      eapply spaced_timestamps; [|exact Hs]. rewrite Eo, !fmap_app. done.
    + rewrite update_appends by (by rewrite El).
      apply all_spaced_insert; [done|]. cbv zeta.
      assert (spaced (series w serverId
                      ++ [{| timestamp := clock w; count := playerCount |}]))
        by (apply spaced_snoc; [done|by rewrite El]).
      case_match; [by apply spaced_tail|done].
  - rewrite update_appends by (by rewrite El).
    apply all_spaced_insert; [done|]. cbv zeta.
    assert (spaced (series w serverId
                    ++ [{| timestamp := clock w; count := playerCount |}]))
      by (apply spaced_snoc; [done|by rewrite El]).
    case_match; [by apply spaced_tail|done].
Qed.

Lemma reachable_spaced ph : reachable ph → all_spaced ph.
Proof.
  induction 1 as [|w id _ IH|w id c mh _ IH].
  - intros id h. by rewrite lookup_empty.
  - by apply initialize_keeps_spacing.
  - by apply update_keeps_spacing.
Qed.

(** C9. In every history map that record calls can produce, consecutive
    samples of every series are at least one sampling interval (3600000 ms)
    apart; a further record call at any clock reading keeps it so, appends
    only when the newest sample is at least one interval old, and otherwise
    leaves every timestamp of the series unchanged. *)
Theorem history_spacing_invariant ph :
  reachable ph →
  (∀ serverId h, ph !! serverId = Some h → spaced h)
  ∧ (∀ w serverId playerCount maxHistory,
       playerHistory w = ph →
       let w' := exec (updatePlayerHistory serverId playerCount maxHistory) w in
       (∀ other h, playerHistory w' !! other = Some h → spaced h)
       ∧ (timestamp <$> series w' serverId = timestamp <$> series w serverId
          ∨ ∃ evicted,
              evicted ++ (timestamp <$> series w' serverId)
                = (timestamp <$> series w serverId) ++ [clock w]
              ∧ match last (series w serverId) with
                | None => True
                | Some newest => 3600000 ≤ clock w - timestamp newest
                end)).
Proof.
  intros Hr. assert (Hall := reachable_spaced ph Hr).
  split; [exact Hall|].
  intros w id c mh <- w'. split; [by apply update_keeps_spacing|].
  destruct (last (series w id)) as [newest|] eqn:El.
  - destruct (Z.lt_ge_cases (clock w - timestamp newest) 3600000) as [Hlt|Hge].
    + left. apply last_Some in El as [older Eo].
      rewrite (series_insert _ w' id _
                 (update_coalesces id c mh w older newest Eo Hlt)).
      rewrite Eo, !fmap_app. done.
    + right.
      rewrite (series_insert (playerHistory w) w' id _
                 (update_appends id c mh w ltac:(by rewrite El))).
      cbv zeta. case_match.
      * destruct (series w id) as [|a h] eqn:Eh; [done|].
        exists [timestamp a]. simpl. by rewrite fmap_app.
      * exists []. simpl. by rewrite fmap_app.
  - right.
    rewrite (series_insert (playerHistory w) w' id _
               (update_appends id c mh w ltac:(by rewrite El))).
    cbv zeta. apply last_None in El. rewrite El. simpl.
    case_match; [by exists [clock w]|by exists []].
Qed.

Lemma history_spacing_invariant_witness :
  let w1 := record_all "42" (Some 24) [(0, 5); (600000, 8); (7200000, 3)]
              example_world in
  reachable (playerHistory w1)
  ∧ series w1 "42"
    = [{| timestamp := 0; count := 8 |}; {| timestamp := 7200000; count := 3 |}]
  ∧ spaced (series w1 "42").
Proof.
  intros w1.
  assert (Hr : reachable (playerHistory w1)).
  { unfold w1, record_all. simpl. unfold record_at.
    repeat apply reachable_update. simpl. apply reachable_empty. }
  split; [exact Hr|]. split; [reflexivity|].
  exact (proj1 (history_spacing_invariant _ Hr) "42" (series w1 "42") eq_refl).
Defined.

(** ** Running the asynchronous functions *)

Ltac run_body :=
  cbv [mbind mret M_bind M_ret try_catch gets modify emit log await settle
       Date_now liftR checked setTitle setColor setTimestamp setImage addFields
       setFooter reconcile_call reconcile_resume];
  world_simpl.

Lemma updatePlayerHistory_run serverId playerCount maxHistory w :
  ∃ ph, updatePlayerHistory serverId playerCount maxHistory w
        = (Ok tt,
           with_playerHistory ph
             (with_trace (trace w ++ [UpdatePlayerHistory serverId playerCount]) w))
        ∧ (reachable (playerHistory w) → reachable ph).
Proof.
  exists (playerHistory
            (exec (updatePlayerHistory serverId playerCount maxHistory) w)).
  split; [|apply reachable_update].
  unfold updatePlayerHistory. destruct w as [t sm ph tr].
  unfold exec. run_body. by repeat (case_match; world_simpl).
Qed.

Section BotProperties.

Context (config : Config).
Context (toLowerCase : string → string).
Context (validate : Embed → BuilderCall → option JsError).
Context (toLocaleTimeString : Z → string).
Context (raster : ChartSpec → Result Buffer).

(** The history writers and the chart step as functions of the world:
    what they return and the world they leave. *)
Lemma initializePlayerHistory_exact serverId w :
  initializePlayerHistory serverId w
  = (Ok tt, with_playerHistory (initialized serverId (playerHistory w)) w).
Proof.
  unfold initialized, bare_world, exec, initializePlayerHistory.
  destruct w as [t sm ph tr]. run_body. by case_match.
Qed.

Lemma updatePlayerHistory_exact serverId playerCount maxHistory w :
  updatePlayerHistory serverId playerCount maxHistory w
  = (Ok tt,
     with_playerHistory
       (recorded (clock w) serverId playerCount maxHistory (playerHistory w))
       (with_trace (trace w ++ [UpdatePlayerHistory serverId playerCount]) w)).
Proof.
  unfold recorded, bare_world, exec, updatePlayerHistory.
  destruct w as [t sm ph tr]. run_body. by repeat (case_match; world_simpl).
Qed.

Lemma generatePlayerChart_exact serverId color w :
  generatePlayerChart toLocaleTimeString raster serverId color w
  = (rendered toLocaleTimeString raster serverId color (playerHistory w),
     with_trace (trace w ++ [GeneratePlayerChart serverId]) w).
Proof.
  unfold rendered, bare_world, generatePlayerChart.
  destruct w as [t sm ph tr]. run_body. by repeat (case_match; world_simpl).
Qed.

Lemma attachChart_exact serverId color embed files w :
  attachChart toLocaleTimeString raster serverId color embed files w
  = (Ok match rendered toLocaleTimeString raster serverId color (playerHistory w) with
        | Ok (Some chartBuffer) =>
            (with_image "attachment://player-chart.png" embed,
             files ++ [chart_attachment chartBuffer])
        | _ => (embed, files)
        end,
     with_trace
       (trace w ++ GeneratePlayerChart serverId ::
          match rendered toLocaleTimeString raster serverId color (playerHistory w) with
          | Throw error =>
              [Log Error ("Failed to generate player chart: " +:+ message error)]
          | Ok _ => []
          end) w).
Proof.
  unfold attachChart. run_body. rewrite generatePlayerChart_exact.
  destruct w as [t sm ph tr]. world_simpl.
  destruct (rendered toLocaleTimeString raster serverId color ph) as [[b|]|e];
    world_simpl; by rewrite <- ?app_assoc.
Qed.

Lemma reachable_initialized serverId ph :
  reachable ph → reachable (initialized serverId ph).
Proof. intros H. by apply (reachable_initialize (bare_world 0 ph)). Qed.

Lemma reachable_recorded now serverId playerCount maxHistory ph :
  reachable ph → reachable (recorded now serverId playerCount maxHistory ph).
Proof. intros H. by apply (reachable_update (bare_world now ph)). Qed.

Arguments initialized : simpl never.
Arguments recorded : simpl never.
Arguments rendered : simpl never.

(** Symbolic execution of a tick and of the command handler.  The goal is
    [f w = (r, w') → P r w'].  [P] is set aside, and [f w] is run: at each
    step the term that blocks the reduction is found, and it is replaced by
    its summary (the history writers and the chart step) or split into its
    cases (an outcome of the environment, a verdict of the builder, a
    member of the configuration, the stored handle).  Then [P] is stated of
    the result and of the world that the run has reached. *)
Ltac blocker t :=
  lazymatch t with
  | (match ?x with _ => _ end) _ => blocker x
  | match ?x with _ => _ end => blocker x
  | _ => t
  end.

Ltac run_step_on T :=
  let b := blocker T in
  lazymatch b with
  | (_, _) => fail
  | initializePlayerHistory ?i ?w => rewrite (initializePlayerHistory_exact i w)
  | updatePlayerHistory ?i ?c ?m ?w => rewrite (updatePlayerHistory_exact i c m w)
  | attachChart _ _ ?i ?c ?e ?f ?w => rewrite (attachChart_exact i c e f w)
  | _ =>
      first [ match goal with H : b = _ |- _ => rewrite H end
            | destruct b eqn:? ]
  end.

Ltac run_step :=
  lazymatch goal with
  | |- ?T = _ → _ => run_step_on T
  | |- ?T = _ => run_step_on T
  end.

Ltac run_goal :=
  cbv [mbind mret M_bind M_ret try_catch gets modify emit log await settle
       Date_now liftR checked setTitle setColor setTimestamp setImage addFields
       setFooter reconcile_call reconcile_resume];
  cbn [trace clock playerHistory statusMessages fst snd with_trace with_clock
       with_playerHistory with_statusMessages outcome resumed_at online
       channels_fetch util_status message_edit channel_send interaction_reply];
  rewrite ?andb_true_r, ?andb_false_r.

Ltac run_all := repeat (run_goal; run_step); run_goal.

Ltac run_then_state :=
  lazymatch goal with
  | |- _ = (?r, ?w') → _ =>
      let P := fresh "P" in
      let E := fresh "E" in
      intros E; pattern r, w';
      lazymatch goal with |- ?Q r w' => set (P := Q) end;
      revert E; run_all;
      intros E; injection E as <- <-; subst P; subst; cbv beta; run_goal
  end.

Ltac use_cases :=
  repeat match goal with
  | H : _ !! _ = _ |- _ => rewrite H
  | H : _ && _ = _ |- _ => rewrite H
  | H : rendered _ _ _ _ _ = _ |- _ => rewrite H
  | H : showNextUpdate _ = _ |- _ => rewrite H
  | H : List.find _ _ = _ |- _ => rewrite H
  end;
  cbn [andb online fst snd].

Ltac trace_simpl :=
  rewrite <- ?app_assoc; rewrite ?drop_app_length;
  unfold steps, deliveries; rewrite ?omap_app;
  cbn [app omap list_omap step_of delivery_of payload_of].

(** A builder that accepts every call did not throw. *)
Ltac builder_accepts :=
  match goal with
  | Hall : ∀ e call, _ e call = None, H : _ = Some _ |- _ =>
      rewrite Hall in H; discriminate H
  end.

Lemma or_else_nonempty x fallback :
  fallback ≠ EmptyString → or_else x fallback ≠ EmptyString.
Proof.
  intros Hf. unfold or_else. destruct (String.eqb_spec x EmptyString); done.
Qed.

Ltac payload_facts :=
  cbn [content ephemeral files embeds title color footer stamp image fields
       with_title with_color with_stamp with_image with_footer with_fields
       new_embed app fmap list_fmap fname].

(** What one tick does, stated of its result [r] and of the world [w'] it
    reaches: its steps in order, its delivery attempts, the stored message
    handles and the history afterwards, how it can reject, and the payload
    that it delivers. *)
Lemma tick_run env s w r w' :
  updateServerStatus config validate toLocaleTimeString raster env s w = (r, w') →
  steps (drop (length (trace w)) (trace w'))
  = StResolve ::
    match resolved env with
    | None => []
    | Some _ =>
        [StProbe] ++ (if probe_online env then [StRecord] else [])
        ++ [StBuild]
        ++ match r with
           | Ok _ =>
               (if chart_mode s && probe_online env then [StRender] else [])
               ++ [StDeliver]
           | Throw _ => []
           end
    end
  ∧ deliveries (drop (length (trace w)) (trace w'))
    = match resolved env, r with
      | Some channel, Ok _ =>
          [match statusMessages w !! channelId s with
           | Some existingMessage => inl existingMessage
           | None => inr channel
           end]
      | _, _ => []
      end
  ∧ statusMessages w'
    = match resolved env, r, statusMessages w !! channelId s,
            outcome (channel_send env) with
      | Some _, Ok _, None, Ok message =>
          <[channelId s := message]> (statusMessages w)
      | _, _, _, _ => statusMessages w
      end
  ∧ (reachable (playerHistory w) → reachable (playerHistory w'))
  ∧ (∀ error, r = Throw error → ∃ e call, validate e call = Some error)
  ∧ ((∀ e call, validate e call = None) → r = Ok tt)
  ∧ playerHistory w'
    = match resolved env, outcome (util_status env) with
      | Some _, Ok result =>
          recorded (resumed_at (util_status env)) (channelId s)
            (players_online result) (historyHours (chart (display s)))
            (initialized (channelId s) (playerHistory w))
      | _, _ => playerHistory w
      end
  ∧ (resolved env = None →
     r = Ok tt
     ∧ drop (length (trace w)) (trace w')
       = [ChannelsFetch (channelId s);
          Log Error ("Channel " +:+ channelId s +:+ " not found for server "
                     +:+ name s)])
  ∧ (∀ p,
       p ∈ omap payload_of (drop (length (trace w)) (trace w')) →
       content p = None
       ∧ ephemeral p = false
       ∧ files p
         = match (if chart_mode s && probe_online env
                  then rendered toLocaleTimeString raster (channelId s)
                         (chart_color (chart (display s))) (playerHistory w')
                  else Ok None) with
           | Ok (Some chartBuffer) => [chart_attachment chartBuffer]
           | _ => []
           end
       ∧ ∃ e,
           embeds p = [e]
           ∧ title e = embed_title (config_embed config)
           ∧ color e = (if probe_online env then colors_online (config_embed config)
                        else colors_offline (config_embed config))
           ∧ footer e = Some (embed_footer (config_embed config))
           ∧ stamp e = Some (resumed_at (util_status env))
           ∧ image e
             = match (if chart_mode s && probe_online env
                      then rendered toLocaleTimeString raster (channelId s)
                             (chart_color (chart (display s))) (playerHistory w')
                      else Ok None) with
               | Ok (Some _) => Some "attachment://player-chart.png"
               | _ =>
                   if String.eqb (display_type (display s)) "banner"
                      && banner_enabled (banner (display s))
                   then Some (banner_url (banner (display s)))
                   else None
               end
           ∧ fname <$> fields e
             = ["📡 Server"; "🔌 Status"]
               ++ (if probe_online env
                   then ["👥 Players"; "🏷️ Version"; "📊 Ping"; "📝 MOTD"]
                        ++ (if showNextUpdate (display s)
                            then ["⏱️ Next Update"] else [])
                   else ["❌ Error"])
           ∧ ∀ f, f ∈ fields e →
                  fname f = "📝 MOTD" ∨ fname f = "❌ Error" →
                  fvalue f ≠ EmptyString).
Proof.
  unfold resolved, probe_online, chart_mode.
  destruct env as [[t1 fo] [t2 so] [t3 eo] [t4 sendo] ro]; destruct w as [t sm ph tr].
  unfold updateServerStatus, checkServerStatus, nextUpdateField.
  cbn [channels_fetch util_status message_edit channel_send outcome resumed_at].
  run_then_state.
  all: use_cases; split_and!;
    [trace_simpl; done ..|done
    |auto using reachable_initialized, reachable_recorded
    |intros error Herr; simplify_eq; eauto
    |intros Hall; first [done | builder_accepts]
    |done
    |intros Hres;
     first [discriminate Hres
           |(split; [done|by rewrite <- ?app_assoc, drop_app_length])]
    |].
  all: trace_simpl; intros p Hp; decompose_list_elem_of.
  all: subst p; split_and!; [done|done|by payload_facts|].
  all: eexists; split; [reflexivity|].
  all: payload_facts; split_and!; try done.
  all: intros f Hf Hn; decompose_list_elem_of; subst f;
       (destruct Hn as [Hn|Hn]; cbn [fname] in Hn; try discriminate Hn);
       cbn [fvalue]; apply or_else_nonempty; discriminate.
Qed.

(** The same in terms of the events and of the final world of the tick. *)
Lemma tick_summary env s w :
  steps (events (updateServerStatus config validate toLocaleTimeString raster env s) w)
  = StResolve ::
    match resolved env with
    | None => []
    | Some _ =>
        [StProbe] ++ (if probe_online env then [StRecord] else [])
        ++ [StBuild]
        ++ match (updateServerStatus config validate toLocaleTimeString raster
                    env s w).1 with
           | Ok _ =>
               (if chart_mode s && probe_online env then [StRender] else [])
               ++ [StDeliver]
           | Throw _ => []
           end
    end
  ∧ deliveries
      (events (updateServerStatus config validate toLocaleTimeString raster env s) w)
    = match resolved env,
            (updateServerStatus config validate toLocaleTimeString raster env s w).1
      with
      | Some channel, Ok _ =>
          [match statusMessages w !! channelId s with
           | Some existingMessage => inl existingMessage
           | None => inr channel
           end]
      | _, _ => []
      end
  ∧ statusMessages
      (exec (updateServerStatus config validate toLocaleTimeString raster env s) w)
    = match resolved env,
            (updateServerStatus config validate toLocaleTimeString raster env s w).1,
            statusMessages w !! channelId s, outcome (channel_send env) with
      | Some _, Ok _, None, Ok message =>
          <[channelId s := message]> (statusMessages w)
      | _, _, _, _ => statusMessages w
      end
  ∧ (reachable (playerHistory w) →
     reachable
       (playerHistory
          (exec (updateServerStatus config validate toLocaleTimeString raster env s)
             w)))
  ∧ (∀ error,
       (updateServerStatus config validate toLocaleTimeString raster env s w).1
       = Throw error →
       ∃ e call, validate e call = Some error)
  ∧ ((∀ e call, validate e call = None) →
     (updateServerStatus config validate toLocaleTimeString raster env s w).1
     = Ok tt).
Proof.
  unfold events, exec.
  destruct (updateServerStatus config validate toLocaleTimeString raster env s w)
    as [r w'] eqn:E.
  cbn [fst snd].
  destruct (tick_run env s w r w' E) as (H1 & H2 & H3 & H4 & H5 & H6 & _).
  done.
Qed.

Lemma tick_exact env s w :
  playerHistory
    (exec (updateServerStatus config validate toLocaleTimeString raster env s) w)
  = match resolved env, outcome (util_status env) with
    | Some _, Ok result =>
        recorded (resumed_at (util_status env)) (channelId s)
          (players_online result) (historyHours (chart (display s)))
          (initialized (channelId s) (playerHistory w))
    | _, _ => playerHistory w
    end
  ∧ (resolved env = None →
     (updateServerStatus config validate toLocaleTimeString raster env s w).1
     = Ok tt
     ∧ events (updateServerStatus config validate toLocaleTimeString raster env s) w
       = [ChannelsFetch (channelId s);
          Log Error ("Channel " +:+ channelId s +:+ " not found for server "
                     +:+ name s)])
  ∧ (∀ p,
       p ∈ omap payload_of
             (events (updateServerStatus config validate toLocaleTimeString raster
                        env s) w) →
       content p = None
       ∧ ephemeral p = false
       ∧ files p
         = match (if chart_mode s && probe_online env
                  then rendered toLocaleTimeString raster (channelId s)
                         (chart_color (chart (display s)))
                         (playerHistory
                            (exec (updateServerStatus config validate
                                     toLocaleTimeString raster env s) w))
                  else Ok None) with
           | Ok (Some chartBuffer) => [chart_attachment chartBuffer]
           | _ => []
           end
       ∧ ∃ e,
           embeds p = [e]
           ∧ title e = embed_title (config_embed config)
           ∧ color e = (if probe_online env then colors_online (config_embed config)
                        else colors_offline (config_embed config))
           ∧ footer e = Some (embed_footer (config_embed config))
           ∧ stamp e = Some (resumed_at (util_status env))
           ∧ image e
             = match (if chart_mode s && probe_online env
                      then rendered toLocaleTimeString raster (channelId s)
                             (chart_color (chart (display s)))
                             (playerHistory
                                (exec (updateServerStatus config validate
                                         toLocaleTimeString raster env s) w))
                      else Ok None) with
               | Ok (Some _) => Some "attachment://player-chart.png"
               | _ =>
                   if String.eqb (display_type (display s)) "banner"
                      && banner_enabled (banner (display s))
                   then Some (banner_url (banner (display s)))
                   else None
               end
           ∧ fname <$> fields e
             = ["📡 Server"; "🔌 Status"]
               ++ (if probe_online env
                   then ["👥 Players"; "🏷️ Version"; "📊 Ping"; "📝 MOTD"]
                        ++ (if showNextUpdate (display s)
                            then ["⏱️ Next Update"] else [])
                   else ["❌ Error"])
           ∧ ∀ f, f ∈ fields e →
                  fname f = "📝 MOTD" ∨ fname f = "❌ Error" →
                  fvalue f ≠ EmptyString).
Proof.
  unfold events, exec.
  destruct (updateServerStatus config validate toLocaleTimeString raster env s w)
    as [r w'] eqn:E.
  cbn [fst snd].
  destruct (tick_run env s w r w' E) as (_ & _ & _ & _ & _ & _ & H7 & H8 & H9).
  done.
Qed.

(** ** StatusProbe *)

(** C3. The probe never raises: whatever the status query does, the probe
    returns a value; when the query fails the value is Offline with the
    message of the failure, and when it succeeds the value is Online with
    the current players, the maximum, the version name, the MOTD and the
    round-trip latency of the response. *)
Theorem probe_never_raises env ip port w :
  ∃ status,
    (checkServerStatus env ip port w).1 = Ok status
    ∧ match outcome (util_status env) with
      | Ok result =>
          status = Online (players_online result) (players_max result)
                          (version_name result) (motd_clean result)
                          (roundTripLatency result)
      | Throw error => status = Offline (message error)
      end.
Proof.
  unfold checkServerStatus. run_body.
  destruct (outcome (util_status env)) as [result|error]; by eexists.
Qed.

Lemma probe_offline env ip port w msg :
  (checkServerStatus env ip port w).1 = Ok (Offline msg) → probe_online env = false.
Proof.
  unfold checkServerStatus, probe_online. run_body.
  by destruct (outcome (util_status env)).
Qed.

(** ** One tick *)

(** C4. A tick whose probe result is Offline makes no record call and
    leaves the history untouched, in particular the series of the target's
    channel id; and it never enters the chart renderer. *)
Theorem offline_tick_leaves_history env s w w0 msg :
  (checkServerStatus env (ip s) (port s) w0).1 = Ok (Offline msg) →
  playerHistory
    (exec (updateServerStatus config validate toLocaleTimeString raster env s) w)
  = playerHistory w
  ∧ series
      (exec (updateServerStatus config validate toLocaleTimeString raster env s) w)
      (channelId s)
    = series w (channelId s)
  ∧ (StRecord
     ∉ steps
         (events (updateServerStatus config validate toLocaleTimeString raster env s)
            w))
  ∧ (StRender
     ∉ steps
         (events (updateServerStatus config validate toLocaleTimeString raster env s)
            w)).
Proof.
  intros Hoff%probe_offline.
  destruct (tick_summary env s w) as (Hsteps & _).
  destruct (tick_exact env s w) as (Hph & _).
  assert (Hsame :
    playerHistory
      (exec (updateServerStatus config validate toLocaleTimeString raster env s) w)
    = playerHistory w).
  { rewrite Hph. unfold probe_online in Hoff.
    destruct (resolved env); [|done].
    by destruct (outcome (util_status env)). }
  rewrite Hsteps, Hoff, andb_false_r.
  unfold series. rewrite Hsame. split_and!; [done|done|..];
    destruct (resolved env); simpl;
    try destruct (updateServerStatus config validate toLocaleTimeString raster
                    env s w).1;
    simpl; rewrite ?not_elem_of_cons; split_and?; try done; apply not_elem_of_nil.
Qed.

(** C7, as the code has it.  Every tick first resolves the destination
    channel; when the channel cannot be resolved the tick ends there.
    Otherwise the steps follow in the order: status probe, history record
    (when online), presentation build; when a call of the embed builder
    throws, the tick ends there and rejects, and otherwise the chart render
    (in chart mode, when enabled and online) and the message delivery
    follow. *)
Theorem tick_resolves_destination_first env s w :
  steps (events (updateServerStatus config validate toLocaleTimeString raster env s) w)
  = StResolve ::
    match resolved env with
    | None => []
    | Some _ =>
        [StProbe] ++ (if probe_online env then [StRecord] else [])
        ++ [StBuild]
        ++ match (updateServerStatus config validate toLocaleTimeString raster
                    env s w).1 with
           | Ok _ =>
               (if chart_mode s && probe_online env then [StRender] else [])
               ++ [StDeliver]
           | Throw _ => []
           end
    end.
Proof. apply tick_summary. Qed.

(** ** MessageReconciler *)

Lemma reconcile_call_run s channel payload w :
  reconcile_call s channel payload w
  = (Ok match statusMessages w !! channelId s with
        | Some existingMessage => PendingEdit existingMessage
        | None => PendingSend channel
        end,
     with_trace
       (trace w
        ++ [match statusMessages w !! channelId s with
            | Some existingMessage => MessageEdit existingMessage payload
            | None => ChannelSend channel payload
            end]) w).
Proof.
  unfold reconcile_call. run_body.
  by destruct (statusMessages w !! channelId s).
Qed.

Lemma reconcile_resume_run env s pending w :
  reconcile_resume env s pending w
  = (Ok tt,
     with_trace
       (trace w
        ++ [match match pending with
                  | PendingEdit _ => outcome (message_edit env)
                  | PendingSend _ =>
                      match outcome (channel_send env) with
                      | Ok _ => Ok tt
                      | Throw error => Throw error
                      end
                  end with
            | Ok _ => Log Info ("Updated status for " +:+ name s)
            | Throw error =>
                Log Error ("Failed to update status message for " +:+ name s
                           +:+ " - " +:+ message error)
            end])
       (with_statusMessages
          match pending, outcome (channel_send env) with
          | PendingSend _, Ok message => <[channelId s := message]> (statusMessages w)
          | _, _ => statusMessages w
          end
          (with_clock
             (resumed_at match pending with
                         | PendingEdit _ => message_edit env
                         | PendingSend _ =>
                             {| resumed_at := resumed_at (channel_send env);
                                outcome := Ok tt |}
                         end) w))).
Proof.
  unfold reconcile_resume. destruct w as [t sm ph tr]. run_body.
  destruct pending; run_body.
  - by destruct (outcome (message_edit env)).
  - by destruct (outcome (channel_send env)).
Qed.

Lemma resume_all_provenance settlements : ∀ w d m,
  statusMessages (resume_all settlements w) !! d = Some m →
  statusMessages w !! d = Some m
  ∨ ∃ env s c, (env, s, PendingSend c) ∈ settlements
               ∧ channelId s = d
               ∧ outcome (channel_send env) = Ok m.
Proof.
  induction settlements as [|[[env s] pending] rest IH]; intros w d m Hm;
    [by left|].
  cbn [resume_all foldl fst snd] in Hm.
  destruct (IH _ d m Hm) as [Hhere|(env' & s' & c' & Hin & Hd & Hok)].
  - unfold exec in Hhere. rewrite reconcile_resume_run in Hhere.
    cbn [snd statusMessages with_trace with_statusMessages] in Hhere.
    destruct pending as [h|c]; [by left|].
    destruct (outcome (channel_send env)) as [message|] eqn:Hsend; [|by left].
    destruct (decide (channelId s = d)) as [Heq|Hne].
    + rewrite Heq, lookup_insert_eq in Hhere. injection Hhere as ->.
      right. exists env, s, c. split; [by left|done].
    + rewrite lookup_insert_ne in Hhere by done. by left.
  - right. exists env', s', c'. split; [by right|done].
Qed.

(** C6. [statusMessages] is a map: it holds at most one handle for a
    destination.  The call half of a reconcile looks the handle up and,
    when there is one, calls an edit of that message, and otherwise a send to
    the channel; it stores nothing.  The half that follows the settlement,
    in whatever world it resumes, never rejects, makes no further edit or
    send (a failed edit is logged, and no message is created instead), and
    stores a handle only for a send that succeeded.  So a tick that does not
    reject makes exactly one delivery attempt, an edit when a handle was
    stored and a send otherwise, and stores a handle only when there was
    none and the send succeeded; a tick that rejects makes no attempt and
    stores nothing.  And over any sequence of settlements, a handle that is
    stored for a destination afterwards was stored before or is the message
    of a send for that destination that succeeded. *)
Theorem reconcile_keeps_one_handle env s w c payload pending w2 :
  reconcile_call s c payload w
  = (Ok match statusMessages w !! channelId s with
        | Some existingMessage => PendingEdit existingMessage
        | None => PendingSend c
        end,
     with_trace
       (trace w
        ++ [match statusMessages w !! channelId s with
            | Some existingMessage => MessageEdit existingMessage payload
            | None => ChannelSend c payload
            end]) w)
  ∧ (reconcile_resume env s pending w2).1 = Ok tt
  ∧ deliveries (events (reconcile_resume env s pending) w2) = []
  ∧ statusMessages (exec (reconcile_resume env s pending) w2)
    = match pending, outcome (channel_send env) with
      | PendingSend _, Ok message => <[channelId s := message]> (statusMessages w2)
      | _, _ => statusMessages w2
      end
  ∧ deliveries
      (events (updateServerStatus config validate toLocaleTimeString raster env s) w)
    = match resolved env,
            (updateServerStatus config validate toLocaleTimeString raster env s w).1
      with
      | Some channel, Ok _ =>
          [match statusMessages w !! channelId s with
           | Some existingMessage => inl existingMessage
           | None => inr channel
           end]
      | _, _ => []
      end
  ∧ statusMessages
      (exec (updateServerStatus config validate toLocaleTimeString raster env s) w)
    = match resolved env,
            (updateServerStatus config validate toLocaleTimeString raster env s w).1,
            statusMessages w !! channelId s, outcome (channel_send env) with
      | Some _, Ok _, None, Ok message =>
          <[channelId s := message]> (statusMessages w)
      | _, _, _, _ => statusMessages w
      end
  ∧ (∀ settlements d m,
       statusMessages (resume_all settlements w2) !! d = Some m →
       statusMessages w2 !! d = Some m
       ∨ ∃ env' s' c', (env', s', PendingSend c') ∈ settlements
                       ∧ channelId s' = d
                       ∧ outcome (channel_send env') = Ok m).
Proof.
  destruct (tick_summary env s w) as (_ & Hd & Hsm & _).
  split_and!;
    [apply reconcile_call_run|..|done|done
    |intros settlements; apply resume_all_provenance];
    unfold events, exec; rewrite reconcile_resume_run; [done|..].
  - destruct w2 as [t sm ph tr]. world_simpl. rewrite drop_app_length.
    by repeat case_match.
  - by destruct w2.
Qed.

(** ** ChartRenderer *)

(** C5. For a series with fewer than two samples the renderer returns
    none.  For a series with at least two samples and any color it hands
    the chart description of the series to the raster backend and returns
    the backend's buffer, which is non-empty for a backend that encodes
    every description into a non-empty image. *)
Theorem chart_render_threshold serverId color w :
  ((length (series w serverId) < 2)%nat →
   (generatePlayerChart toLocaleTimeString raster serverId color w).1 = Ok None)
  ∧ ((2 ≤ length (series w serverId))%nat →
     (∀ spec, ∃ buffer, raster spec = Ok buffer ∧ buffer ≠ []) →
     ∃ buffer,
       (generatePlayerChart toLocaleTimeString raster serverId color w).1
       = Ok (Some buffer)
       ∧ buffer ≠ []
       ∧ raster {| labels := (λ entry, toLocaleTimeString (timestamp entry))
                             <$> series w serverId;
                   data := count <$> series w serverId;
                   borderColor := default "#3498db" color;
                   backgroundColor := default "#3498db" color +:+ "33" |}
         = Ok buffer).
Proof.
  unfold generatePlayerChart, series. run_body. split.
  - intros Hlt. by rewrite bool_decide_eq_true_2.
  - intros Hge Hraster. rewrite bool_decide_eq_false_2 by lia.
    destruct (Hraster
      {| labels := map (λ entry, toLocaleTimeString (timestamp entry))
                       (default [] (playerHistory w !! serverId));
         data := map count (default [] (playerHistory w !! serverId));
         borderColor := default "#3498db" color;
         backgroundColor := default "#3498db" color +:+ "33" |})
      as (buffer & E & Hne).
    exists buffer. by rewrite E.
Qed.

(** ** The status command *)

Lemma find_elem_of {A} (f : A → bool) l x : List.find f l = Some x → x ∈ l.
Proof. intros H. apply list_elem_of_In. by apply find_some in H as [? _]. Qed.

Lemma chart_type_not_banner (s : ServerConfig) :
  chart_mode s = true →
  String.eqb (display_type (display s)) "banner"
  && banner_enabled (banner (display s)) = false.
Proof.
  unfold chart_mode. intros [Ht _]%andb_true_iff.
  apply String.eqb_eq in Ht. by rewrite Ht.
Qed.

Ltac not_in_list :=
  repeat (apply not_elem_of_cons; split; [done|]); apply not_elem_of_nil.

(** What one run of the command handler does, stated of its result [r] and
    of the world [w'] it reaches. *)
Lemma command_run env i w r w' :
  interactionCreate config toLowerCase validate toLocaleTimeString raster env i w
  = (r, w') →
  playerHistory w' = playerHistory w
  ∧ statusMessages w' = statusMessages w
  ∧ (StRecord ∉ steps (drop (length (trace w)) (trace w')))
  ∧ deliveries (drop (length (trace w)) (trace w')) = []
  ∧ (∀ sm,
       interactionCreate config toLowerCase validate toLocaleTimeString raster
         env i (with_statusMessages sm w)
       = (r, with_statusMessages sm w'))
  ∧ (isCommand i && String.eqb (commandName i) "status" = false →
     r = Ok tt ∧ w' = w)
  ∧ (isCommand i && String.eqb (commandName i) "status" = true →
     match List.find (λ s, String.eqb (toLowerCase (name s))
                                      (toLowerCase (options_server i)))
                     (minecraft_servers config) with
     | None =>
         r = outcome (interaction_reply env)
         ∧ drop (length (trace w)) (trace w')
           = [InteractionReply
                {| content := Some ("Server " +:+ dquote +:+ options_server i
                                    +:+ dquote +:+ " not found in configuration!");
                   embeds := []; files := []; ephemeral := true |}]
     | Some server =>
         head (drop (length (trace w)) (trace w'))
         = Some (UtilStatus (ip server) (default 25565 (port server)))
         ∧ ((r = outcome (interaction_reply env)
             ∧ steps (drop (length (trace w)) (trace w'))
               = [StProbe; StBuild]
                 ++ (if chart_mode server && probe_online env
                     then [StRender] else [])
                 ++ [StReply])
            ∨ (steps (drop (length (trace w)) (trace w')) = [StProbe; StBuild]
               ∧ ∃ error e call,
                   r = Throw error ∧ validate e call = Some error))
     end)
  ∧ ((∀ e call, validate e call = None) →
     isCommand i && String.eqb (commandName i) "status" = true →
     r = outcome (interaction_reply env)
     ∧ StReply ∈ steps (drop (length (trace w)) (trace w')))
  ∧ (∀ p,
       p ∈ omap payload_of (drop (length (trace w)) (trace w')) →
       ephemeral p = true
       ∧ match List.find (λ s, String.eqb (toLowerCase (name s))
                                          (toLowerCase (options_server i)))
                         (minecraft_servers config) with
         | None => files p = []
         | Some server =>
             content p = None
             ∧ files p
               = match (if chart_mode server && probe_online env
                        then rendered toLocaleTimeString raster (channelId server)
                               (chart_color (chart (display server)))
                               (playerHistory w)
                        else Ok None) with
                 | Ok (Some chartBuffer) => [chart_attachment chartBuffer]
                 | _ => []
                 end
             ∧ ∃ e,
                 embeds p = [e]
                 ∧ title e = name server +:+ " Status"
                 ∧ color e
                   = (if probe_online env then colors_online (config_embed config)
                      else colors_offline (config_embed config))
                 ∧ footer e = Some (embed_footer (config_embed config))
                 ∧ image e
                   = match (if chart_mode server && probe_online env
                            then rendered toLocaleTimeString raster
                                   (channelId server)
                                   (chart_color (chart (display server)))
                                   (playerHistory w)
                            else Ok None) with
                     | Ok (Some _) => Some "attachment://player-chart.png"
                     | _ =>
                         if String.eqb (display_type (display server)) "banner"
                            && banner_enabled (banner (display server))
                         then Some (banner_url (banner (display server)))
                         else None
                     end
                 ∧ fname <$> fields e
                   = (if probe_online env
                      then ["🔌 Status"; "👥 Players"; "📊 Ping"; "🏷️ Version"]
                           ++ (if showNextUpdate (display server)
                               then ["⏱️ Next Update"] else [])
                      else ["🔌 Status"; "❌ Error"])
                 ∧ ∀ f, f ∈ fields e → fname f = "❌ Error" →
                        fvalue f ≠ EmptyString
         end).
Proof.
  unfold probe_online.
  assert (Hcb := chart_type_not_banner). unfold chart_mode in *.
  destruct env as [[t1 fo] [t2 so] [t3 eo] [t4 sendo] [t5 ro]].
  destruct w as [t sm ph tr]. destruct i as [cmd nm srv].
  unfold interactionCreate, checkServerStatus, nextUpdateField.
  cbn [isCommand commandName options_server channels_fetch util_status
       message_edit channel_send interaction_reply outcome resumed_at].
  destruct cmd, (String.eqb nm "status") eqn:Hnm; cbn [andb negb].
  2-4: intros [= <- <-]; world_simpl; rewrite drop_all;
       (split_and!; try done);
       [apply not_elem_of_nil|intros p Hp; by apply elem_of_nil in Hp].
  run_then_state.
  all: use_cases; split_and!;
    [done|done|trace_simpl; not_in_list|trace_simpl; done
    |intros sm'; run_all; reflexivity|done
    |intros _; first [(split; [done|by trace_simpl])|split; [by trace_simpl|]]
    |intros Hall _;
     first [builder_accepts | (split; [done|trace_simpl; repeat constructor])]
    |].
  all: try match goal with
       | |- _ ∨ _ =>
           first [left; split; [done|by trace_simpl]
                 |right; split; [by trace_simpl|];
                  eexists _, _, _; split; [reflexivity|eassumption]]
       end.
  all: trace_simpl; intros p Hp; decompose_list_elem_of; subst p;
       (split; [done|]); try done.
  all: repeat match goal with
       | H : _ && _ = true |- _ => pose proof (Hcb _ H); clear Hcb
       end.
  all: use_cases; split_and!; [done|by payload_facts|].
  all: eexists; split; [reflexivity|].
  all: payload_facts; split_and!; try done.
  all: intros f Hf Hn; decompose_list_elem_of; subst f;
       cbn [fname] in Hn; try discriminate Hn;
       cbn [fvalue]; apply or_else_nonempty; discriminate.
Qed.

Lemma generatePlayerChart_result serverId color w :
  (generatePlayerChart toLocaleTimeString raster serverId color w).1
  = rendered toLocaleTimeString raster serverId color (playerHistory w).
Proof. by rewrite generatePlayerChart_exact. Qed.

Lemma reply_payload p (l : list Event) :
  InteractionReply p ∈ l → p ∈ omap payload_of l.
Proof. intros H. apply list_elem_of_omap. by exists (InteractionReply p). Qed.

(** C8. The status command never records: it leaves the history of every
    channel id and the stored message handles as they were, it makes no
    edit and no send, its result and its events do not depend on the stored
    handles, its reply is ephemeral, and a chart attached to the reply is
    the one rendered from the history as it was when the command arrived. *)
Theorem status_command_reads_only env i w :
  playerHistory
    (exec (interactionCreate config toLowerCase validate toLocaleTimeString raster
             env i) w)
  = playerHistory w
  ∧ statusMessages
      (exec (interactionCreate config toLowerCase validate toLocaleTimeString raster
               env i) w)
    = statusMessages w
  ∧ (StRecord
     ∉ steps
         (events (interactionCreate config toLowerCase validate toLocaleTimeString
                    raster env i) w))
  ∧ deliveries
      (events (interactionCreate config toLowerCase validate toLocaleTimeString
                 raster env i) w)
    = []
  ∧ (∀ sm,
       (interactionCreate config toLowerCase validate toLocaleTimeString raster
          env i (with_statusMessages sm w)).1
       = (interactionCreate config toLowerCase validate toLocaleTimeString raster
            env i w).1
       ∧ events (interactionCreate config toLowerCase validate toLocaleTimeString
                   raster env i)
                (with_statusMessages sm w)
         = events (interactionCreate config toLowerCase validate toLocaleTimeString
                     raster env i) w)
  ∧ (∀ p,
       InteractionReply p
       ∈ events (interactionCreate config toLowerCase validate toLocaleTimeString
                   raster env i) w →
       ephemeral p = true
       ∧ ∀ a, a ∈ files p →
           ∃ server,
             server ∈ minecraft_servers config
             ∧ (generatePlayerChart toLocaleTimeString raster (channelId server)
                  (chart_color (chart (display server))) w).1
               = Ok (Some (attachment a))).
Proof.
  unfold events, exec.
  destruct (interactionCreate config toLowerCase validate toLocaleTimeString raster
              env i w) as [r w'] eqn:E.
  destruct (command_run env i w r w' E)
    as (Hph & Hsm & Hrec & Hdel & Hframe & _ & _ & _ & Hp).
  cbn [fst snd]. split_and!; [done..| |].
  - intros sm. rewrite Hframe. by destruct w, w'.
  - intros p Hin%reply_payload. destruct (Hp p Hin) as [Heph Hfound].
    split; [done|]. intros a Ha.
    destruct (List.find _ _) as [server|] eqn:Hfind;
      [|rewrite Hfound in Ha; by apply elem_of_nil in Ha].
    destruct Hfound as (_ & Hfiles & _). exists server.
    split; [by eapply find_elem_of|].
    rewrite generatePlayerChart_result. rewrite Hfiles in Ha.
    destruct (chart_mode server && probe_online env);
      [|by apply elem_of_nil in Ha].
    destruct (rendered _ _ _ _ _) as [[b|]|];
      [|by apply elem_of_nil in Ha..].
    apply list_elem_of_singleton in Ha. by subst a.
Qed.

(** On the ASCII letters, equal after lowering is equal up to letter case. *)
Lemma nat_of_ascii_inj x y : nat_of_ascii x = nat_of_ascii y → x = y.
Proof.
  intros E. rewrite <- (ascii_nat_embedding x), <- (ascii_nat_embedding y).
  by rewrite E.
Qed.

Lemma toLower_spec a b : toLower a = toLower b ↔ same_letter a b.
Proof.
  unfold toLower, same_letter, is_upper.
  pose proof (nat_ascii_bounded a) as Ba. pose proof (nat_ascii_bounded b) as Bb.
  destruct (Nat.leb_spec 65 (nat_of_ascii a)), (Nat.leb_spec (nat_of_ascii a) 90),
    (Nat.leb_spec 65 (nat_of_ascii b)), (Nat.leb_spec (nat_of_ascii b) 90);
    cbn [andb]; split.
  all: try (intros E; apply (f_equal nat_of_ascii) in E;
            rewrite ?nat_ascii_embedding in E by lia).
  all: try (intros [->|[[? E]|[? E]]]; try done; try lia).
  all: try (left; apply nat_of_ascii_inj; lia).
  all: try (right; left; split; [done|lia]).
  all: try (right; right; split; [done|lia]).
  all: try (apply nat_of_ascii_inj; rewrite ?nat_ascii_embedding by lia; lia).
  all: try (left; by apply nat_of_ascii_inj).
Qed.

Lemma toLowerCase_ascii_spec a b :
  toLowerCase_ascii a = toLowerCase_ascii b ↔ same_ignoring_case a b.
Proof.
  revert b. induction a as [|x a IH]; intros [|y b]; simpl; try done.
  rewrite <- IH, <- toLower_spec. split.
  - by intros [= -> ->].
  - by intros [-> ->].
Qed.

Lemma find_none_lowered nm servers :
  (∀ s, s ∈ servers → toLowerCase (name s) ≠ toLowerCase nm) →
  List.find (λ s, String.eqb (toLowerCase (name s)) (toLowerCase nm)) servers = None.
Proof.
  induction servers as [|s servers IH]; intros Hno; [done|]. simpl.
  destruct (String.eqb_spec (toLowerCase (name s)) (toLowerCase nm)) as [E|_].
  - destruct (Hno s); [by left|done].
  - apply IH. intros s' Hin. apply Hno. by right.
Qed.

Lemma find_first_lowered nm pre s post :
  toLowerCase (name s) = toLowerCase nm →
  (∀ s', s' ∈ pre → toLowerCase (name s') ≠ toLowerCase nm) →
  List.find (λ s, String.eqb (toLowerCase (name s)) (toLowerCase nm))
            (pre ++ s :: post) = Some s.
Proof.
  intros Hs. induction pre as [|s' pre IH]; intros Hno; simpl.
  - by rewrite Hs, String.eqb_refl.
  - destruct (String.eqb_spec (toLowerCase (name s')) (toLowerCase nm)) as [E|_].
    + destruct (Hno s'); [by left|done].
    + apply IH. intros s'' Hin. apply Hno. by right.
Qed.

(** C10. The status command compares the requested name with the names of
    the configured servers after [toLowerCase] on both sides, that is,
    ignoring the case of letters.  It takes the first server whose name
    matches and probes it first.  When no configured name matches, its only
    action is the not-found reply: no probe, no change of the history and no
    edit or create of a status message. *)
Theorem status_command_unknown_server env i w :
  isCommand i = true →
  commandName i = "status" →
  ((∀ s, s ∈ minecraft_servers config →
         toLowerCase (name s) ≠ toLowerCase (options_server i)) →
   events (interactionCreate config toLowerCase validate toLocaleTimeString raster
             env i) w
   = [InteractionReply
        {| content := Some ("Server " +:+ dquote +:+ options_server i +:+ dquote
                            +:+ " not found in configuration!");
           embeds := []; files := []; ephemeral := true |}]
   ∧ playerHistory
       (exec (interactionCreate config toLowerCase validate toLocaleTimeString
                raster env i) w)
     = playerHistory w
   ∧ statusMessages
       (exec (interactionCreate config toLowerCase validate toLocaleTimeString
                raster env i) w)
     = statusMessages w)
  ∧ (∀ pre s post,
       minecraft_servers config = pre ++ s :: post →
       toLowerCase (name s) = toLowerCase (options_server i) →
       (∀ s', s' ∈ pre → toLowerCase (name s') ≠ toLowerCase (options_server i)) →
       head (events (interactionCreate config toLowerCase validate
                       toLocaleTimeString raster env i) w)
       = Some (UtilStatus (ip s) (default 25565 (port s)))).
Proof.
  intros Hcmd Hname. unfold events, exec.
  destruct (interactionCreate config toLowerCase validate toLocaleTimeString raster
              env i w) as [r w'] eqn:E.
  destruct (command_run env i w r w' E) as (Hph & Hsm & _ & _ & _ & _ & Hst & _).
  rewrite Hcmd, Hname in Hst. specialize (Hst eq_refl). cbn [fst snd]. split.
  - intros Hno%find_none_lowered. rewrite Hno in Hst. by destruct Hst as [_ ->].
  - intros pre s post Hcfg Hs Hpre.
    assert (Hfind := find_first_lowered _ pre s post Hs Hpre).
    rewrite <- Hcfg in Hfind. rewrite Hfind in Hst. by destruct Hst as [-> _].
Qed.

(** ** More on the HistoryStore *)

(** The two outcomes of a record call. *)
Lemma update_cases serverId playerCount maxHistory w :
  (∃ older newest,
     series w serverId = older ++ [newest]
     ∧ clock w - timestamp newest < 3600000
     ∧ playerHistory (exec (updatePlayerHistory serverId playerCount maxHistory) w)
       = <[serverId := older ++ [set_count playerCount newest]]> (playerHistory w))
  ∨ (match last (series w serverId) with
     | None => True
     | Some newest => 3600000 ≤ clock w - timestamp newest
     end
     ∧ playerHistory (exec (updatePlayerHistory serverId playerCount maxHistory) w)
       = <[serverId :=
             let h := series w serverId
                      ++ [{| timestamp := clock w; count := playerCount |}] in
             if default 24 maxHistory <? Z.of_nat (length h) then tail h else h]>
           (playerHistory w)).
Proof.
  destruct (last (series w serverId)) as [newest|] eqn:El.
  - destruct (Z.lt_ge_cases (clock w - timestamp newest) 3600000) as [Hlt|Hge].
    + left. apply last_Some in El as [older Eo]. exists older, newest.
      split_and!; [done|done|]. by apply update_coalesces.
    + right. split; [done|]. apply update_appends. by rewrite El.
  - right. split; [done|]. apply update_appends. by rewrite El.
Qed.

(** X1. A record call always returns, writes only the series of its own
    channel id (which exists afterwards), and leaves the other series, the
    stored message handles and the clock as they were. *)
Theorem record_touches_one_series serverId playerCount maxHistory w :
  let w' := exec (updatePlayerHistory serverId playerCount maxHistory) w in
  (updatePlayerHistory serverId playerCount maxHistory w).1 = Ok tt
  ∧ (∀ other, other ≠ serverId →
       playerHistory w' !! other = playerHistory w !! other)
  ∧ is_Some (playerHistory w' !! serverId)
  ∧ statusMessages w' = statusMessages w
  ∧ clock w' = clock w
  ∧ trace w' = trace w ++ [UpdatePlayerHistory serverId playerCount].
Proof.
  intros w'.
  destruct (updatePlayerHistory_run serverId playerCount maxHistory w)
    as (ph' & E & _).
  assert (Hc := update_cases serverId playerCount maxHistory w). fold w' in Hc.
  assert (Ew : w' = with_playerHistory ph'
                      (with_trace
                         (trace w ++ [UpdatePlayerHistory serverId playerCount]) w))
    by (unfold w', exec; by rewrite E).
  rewrite E. clearbody w'. subst w'. simpl in *.
  split_and!; try done.
  - intros other Hne.
    destruct Hc as [(older & newest & _ & _ & ->)|[_ ->]];
      by rewrite lookup_insert_ne.
  - destruct Hc as [(older & newest & _ & _ & ->)|[_ ->]];
      by rewrite lookup_insert_eq.
Qed.

Lemma update_length serverId playerCount maxHistory w :
  let n := length (series w serverId) in
  let n' := length (series (exec (updatePlayerHistory serverId playerCount maxHistory) w)
                      serverId) in
  (n ≤ n' ≤ n + 1)%nat
  ∧ (0 ≤ default 24 maxHistory → Z.of_nat n ≤ default 24 maxHistory →
     Z.of_nat n' ≤ default 24 maxHistory)
  ∧ (default 24 maxHistory ≤ 0 → n = 0%nat → n' = 0%nat).
Proof.
  cbv zeta.
  destruct (update_cases serverId playerCount maxHistory w)
    as [(older & newest & Es & _ & E)|[_ E]];
    rewrite (series_insert _ _ _ _ E).
  - rewrite Es, !length_app. simpl. lia.
  - cbv zeta. rewrite length_app. simpl.
    destruct (Z.ltb_spec (default 24 maxHistory)
                (Z.of_nat (length (series w serverId) + 1))) as [Hlt|Hge].
    + destruct (series w serverId) as [|a h]; simpl; [lia|].
      rewrite length_app. simpl. lia.
    + rewrite length_app. simpl. lia.
Qed.

(** X2. A run of record calls on one channel id, at any clock readings, never
    shortens the series and adds at most one sample per call; a series
    within a capacity of at least 0 stays within it. *)
Theorem record_all_length_bounds serverId maxHistory obs w :
  (length (series w serverId)
   ≤ length (series (record_all serverId maxHistory obs w) serverId)
   ≤ length (series w serverId) + length obs)%nat
  ∧ (0 ≤ default 24 maxHistory →
     Z.of_nat (length (series w serverId)) ≤ default 24 maxHistory →
     Z.of_nat (length (series (record_all serverId maxHistory obs w) serverId))
     ≤ default 24 maxHistory).
Proof.
  revert w. induction obs as [|o obs IH]; intros w; [simpl; lia|].
  change (record_all serverId maxHistory (o :: obs) w)
    with (record_all serverId maxHistory obs (record_at serverId maxHistory w o)).
  destruct (IH (record_at serverId maxHistory w o)) as [IH1 IH2].
  destruct (update_length serverId o.2 maxHistory (with_clock o.1 w))
    as (H1 & H2 & _).
  rewrite series_with_clock in H1, H2. unfold record_at in *. simpl.
  split; [lia|]. intros Hcap Hlen. apply IH2; [done|]. by apply H2.
Qed.

(** X3. With a capacity of 0 or less (a configured [historyHours] of 0) the
    history of a channel never holds a sample. *)
Theorem record_all_zero_capacity serverId maxHistory obs w :
  default 24 maxHistory ≤ 0 →
  series w serverId = [] →
  series (record_all serverId maxHistory obs w) serverId = [].
Proof.
  intros Hcap. revert w. induction obs as [|o obs IH]; intros w Hs; [done|].
  change (record_all serverId maxHistory (o :: obs) w)
    with (record_all serverId maxHistory obs (record_at serverId maxHistory w o)).
  apply IH. apply length_zero_iff_nil.
  destruct (update_length serverId o.2 maxHistory (with_clock o.1 w))
    as (_ & _ & H). apply H; [done|]. by rewrite series_with_clock, Hs.
Qed.

Lemma update_newest serverId playerCount maxHistory w :
  1 ≤ default 24 maxHistory →
  ∃ newest,
    last (series (exec (updatePlayerHistory serverId playerCount maxHistory) w)
            serverId) = Some newest
    ∧ count newest = playerCount
    ∧ clock w - timestamp newest < 3600000.
Proof.
  intros Hcap.
  destruct (update_cases serverId playerCount maxHistory w)
    as [(older & newest & Es & Hlt & E)|[_ E]];
    rewrite (series_insert _ _ _ _ E).
  - exists (set_count playerCount newest). by rewrite last_snoc.
  - exists {| timestamp := clock w; count := playerCount |}. cbv zeta.
    split; [|cbn [timestamp count]; split; [done|lia]].
    destruct (Z.ltb_spec (default 24 maxHistory)
                (Z.of_nat (length (series w serverId
                                   ++ [{| timestamp := clock w;
                                          count := playerCount |}]))))
      as [Hlt|_]; [|by rewrite last_snoc].
    destruct (series w serverId) as [|a h]; simpl in *; [lia|].
    by rewrite last_snoc.
Qed.

(** X4. After a record call with a capacity of at least 1, the newest sample
    of the series holds the observed count and is less than one sampling
    interval older than the clock reading of the call. *)
Theorem record_newest_is_observation serverId playerCount maxHistory w :
  1 ≤ default 24 maxHistory →
  ∃ newest,
    last (series (exec (updatePlayerHistory serverId playerCount maxHistory) w)
            serverId) = Some newest
    ∧ count newest = playerCount
    ∧ clock w - timestamp newest < 3600000.
Proof. apply update_newest. Qed.

Lemma spaced_from_head a h :
  spaced (a :: h) →
  ∀ k b, h !! k = Some b → (Z.of_nat k + 1) * 3600000 ≤ timestamp b - timestamp a.
Proof.
  revert a. induction h as [|c h IH]; intros a Hs k b Hk; [done|].
  apply spaced_cons2 in Hs as [Hac Hs].
  destruct k as [|k]; simpl in Hk.
  - injection Hk as <-. lia.
  - specialize (IH c Hs k b Hk). lia.
Qed.

Lemma spaced_gap h :
  spaced h →
  ∀ i j a b, (i < j)%nat → h !! i = Some a → h !! j = Some b →
    (Z.of_nat j - Z.of_nat i) * 3600000 ≤ timestamp b - timestamp a.
Proof.
  induction h as [|c h IH]; intros Hs i j a b Hij Hi Hj; [done|].
  destruct j as [|j]; [lia|]. simpl in Hj.
  destruct i as [|i]; simpl in Hi.
  - injection Hi as <-. pose proof (spaced_from_head c h Hs j b Hj). lia.
  - assert (Hs' : spaced h) by (apply (spaced_tail (c :: h) Hs)).
    specialize (IH Hs' i j a b ltac:(lia) Hi Hj). lia.
Qed.

(** X5. In every history that record calls can produce, the timestamps of a
    series ascend: a later sample is younger than an earlier one by at
    least one sampling interval per position between them. *)
Theorem reachable_timestamps_ascend ph serverId h i j a b :
  reachable ph →
  ph !! serverId = Some h →
  (i < j)%nat → h !! i = Some a → h !! j = Some b →
  (Z.of_nat j - Z.of_nat i) * 3600000 ≤ timestamp b - timestamp a.
Proof.
  intros Hr Hh. apply spaced_gap. by eapply (reachable_spaced ph Hr).
Qed.

(** X6. [initializePlayerHistory] makes the key present and never discards
    samples: the series of every channel id is as before, and a map that
    already has the key is left as it is. *)
Theorem initialize_keeps_series serverId w :
  let w' := exec (initializePlayerHistory serverId) w in
  (initializePlayerHistory serverId w).1 = Ok tt
  ∧ is_Some (playerHistory w' !! serverId)
  ∧ (∀ other, series w' other = series w other)
  ∧ (is_Some (playerHistory w !! serverId) → w' = w)
  ∧ statusMessages w' = statusMessages w ∧ trace w' = trace w.
Proof.
  unfold initializePlayerHistory, exec, series. destruct w as [t sm ph tr].
  run_body. destruct (ph !! serverId) as [h|] eqn:Hs.
  - rewrite bool_decide_eq_true_2 by done. cbn [negb]. world_simpl.
    rewrite Hs. split_and!; done.
  - rewrite bool_decide_eq_false_2 by (by intros [? ?]). cbn [negb]. world_simpl.
    rewrite lookup_insert_eq. split_and!; try done.
    intros other. destruct (decide (serverId = other)) as [<-|Hne].
    + by rewrite lookup_insert_eq, Hs.
    + by rewrite lookup_insert_ne.
Qed.

(** ** Further properties of a tick and of the status command *)

(** The history maps that a tick leaves are reachable, so their series are
    spaced. *)
Lemma tick_keeps_spacing env s w :
  reachable (playerHistory w) →
  all_spaced
    (playerHistory
       (exec (updateServerStatus config validate toLocaleTimeString raster env s) w)).
Proof. intros H. by apply reachable_spaced, tick_summary. Qed.

(** *** The history written by a tick *)

Lemma recorded_cases now serverId playerCount maxHistory ph :
  ∃ h, recorded now serverId playerCount maxHistory ph = <[serverId := h]> ph.
Proof.
  unfold recorded.
  destruct (update_cases serverId playerCount maxHistory (bare_world now ph))
    as [(older & newest & _ & _ & ->)|[_ ->]]; by eexists.
Qed.

Lemma initialized_series serverId ph other :
  default [] (initialized serverId ph !! other) = default [] (ph !! other)
  ∧ (other ≠ serverId → initialized serverId ph !! other = ph !! other).
Proof.
  unfold initialized, bare_world, exec, initializePlayerHistory. run_body.
  destruct (ph !! serverId) as [h|] eqn:Hs.
  - rewrite bool_decide_eq_true_2 by done. done.
  - rewrite bool_decide_eq_false_2 by (by intros [? ?]). cbn [negb]. world_simpl.
    destruct (decide (serverId = other)) as [<-|Hne].
    + rewrite lookup_insert_eq, Hs. done.
    + by rewrite lookup_insert_ne.
Qed.

Lemma recorded_newest now serverId playerCount maxHistory ph :
  1 ≤ default 24 maxHistory →
  (∃ newest,
     last (default [] (recorded now serverId playerCount maxHistory ph !! serverId))
     = Some newest
     ∧ count newest = playerCount
     ∧ now - timestamp newest < 3600000)
  ∧ (default [] (ph !! serverId) = [] →
     recorded now serverId playerCount maxHistory ph !! serverId
     = Some [{| timestamp := now; count := playerCount |}]).
Proof.
  intros Hcap. split.
  - apply (update_newest serverId playerCount maxHistory (bare_world now ph) Hcap).
  - intros He. unfold recorded.
    rewrite update_appends
      by (unfold series; cbn [playerHistory bare_world]; by rewrite He).
    rewrite lookup_insert_eq. unfold series. cbn [playerHistory bare_world clock].
    rewrite He. cbv zeta. cbn [app length].
    destruct (Z.ltb_spec (default 24 maxHistory) (Z.of_nat 1)); [lia|done].
Qed.

(** X7. A tick absorbs every failure of the channel lookup, of the status
    query, of the raster backend and of the message edit or send: it rejects
    only with an error thrown by a call of the embed builder, and then after
    the history write, with the build as its last step, without any delivery
    attempt and with the stored handles as they were.  With a builder that
    accepts every call the tick always completes. *)
Theorem tick_rejects_only_in_builder env s w :
  (∀ error,
     (updateServerStatus config validate toLocaleTimeString raster env s w).1
     = Throw error →
     (∃ e call, validate e call = Some error)
     ∧ steps
         (events (updateServerStatus config validate toLocaleTimeString raster env s)
            w)
       = [StResolve; StProbe] ++ (if probe_online env then [StRecord] else [])
         ++ [StBuild]
     ∧ deliveries
         (events (updateServerStatus config validate toLocaleTimeString raster env s)
            w)
       = []
     ∧ statusMessages
         (exec (updateServerStatus config validate toLocaleTimeString raster env s) w)
       = statusMessages w)
  ∧ ((∀ e call, validate e call = None) →
     (updateServerStatus config validate toLocaleTimeString raster env s w).1
     = Ok tt).
Proof.
  destruct (tick_summary env s w) as (Hsteps & Hdel & Hsm & _ & Hthrow & Hok).
  destruct (tick_exact env s w) as (_ & Hun & _).
  split; [|done]. intros error Herr.
  rewrite Hsteps, Hdel, Hsm, Herr. split; [by apply Hthrow|].
  destruct (resolved env) as [c|] eqn:Hres;
    [|destruct (Hun eq_refl) as [Hr _]; congruence].
  by rewrite app_nil_r.
Qed.

(** X8. A tick changes neither the history nor the stored message handle
    of any channel id other than its own. *)
Theorem tick_touches_own_channel_only env s w other :
  other ≠ channelId s →
  playerHistory
    (exec (updateServerStatus config validate toLocaleTimeString raster env s) w)
    !! other = playerHistory w !! other
  ∧ statusMessages
      (exec (updateServerStatus config validate toLocaleTimeString raster env s) w)
      !! other = statusMessages w !! other.
Proof.
  intros Hne. destruct (tick_exact env s w) as (-> & _).
  destruct (tick_summary env s w) as (_ & _ & -> & _). split.
  - destruct (resolved env); [|done].
    destruct (outcome (util_status env)) as [r|]; [|done].
    destruct (recorded_cases (resumed_at (util_status env)) (channelId s)
                (players_online r) (historyHours (chart (display s)))
                (initialized (channelId s) (playerHistory w))) as [h ->].
    rewrite lookup_insert_ne by done. by apply initialized_series.
  - destruct (resolved env); [|done].
    destruct (updateServerStatus config validate toLocaleTimeString raster
                env s w).1; [|done].
    destruct (statusMessages w !! channelId s); [done|].
    destruct (outcome (channel_send env)); [|done].
    by rewrite lookup_insert_ne.
Qed.

(** X9. A tick that resolves its channel and finds the server online, with
    a history capacity of at least 1, leaves as newest sample of its channel
    the observed player count, stamped less than one sampling interval
    before the clock reading at which the status query settled; on a channel
    without history the series is exactly that one sample. *)
Theorem online_tick_records_observation env s w channel result :
  resolved env = Some channel →
  outcome (util_status env) = Ok result →
  1 ≤ default 24 (historyHours (chart (display s))) →
  (∃ newest,
     last (series
             (exec (updateServerStatus config validate toLocaleTimeString raster
                      env s) w)
             (channelId s)) = Some newest
     ∧ count newest = players_online result
     ∧ resumed_at (util_status env) - timestamp newest < 3600000)
  ∧ (series w (channelId s) = [] →
     series
       (exec (updateServerStatus config validate toLocaleTimeString raster env s) w)
       (channelId s)
     = [{| timestamp := resumed_at (util_status env);
           count := players_online result |}]).
Proof.
  intros Hres Hok Hcap. unfold series.
  destruct (tick_exact env s w) as (-> & _). rewrite Hres, Hok.
  destruct (recorded_newest (resumed_at (util_status env)) (channelId s)
              (players_online result) (historyHours (chart (display s)))
              (initialized (channelId s) (playerHistory w)) Hcap) as [H1 H2].
  split; [done|]. intros He. rewrite H2; [done|].
  by rewrite (proj1 (initialized_series (channelId s) (playerHistory w) (channelId s))).
Qed.

(** X10. A tick whose channel cannot be resolved does nothing but log the
    failure: its only events are the lookup and one error line naming the
    channel and the server, and both maps are as before. *)
Theorem unresolved_tick_is_noop env s w :
  resolved env = None →
  events (updateServerStatus config validate toLocaleTimeString raster env s) w
  = [ChannelsFetch (channelId s);
     Log Error ("Channel " +:+ channelId s +:+ " not found for server " +:+ name s)]
  ∧ playerHistory
      (exec (updateServerStatus config validate toLocaleTimeString raster env s) w)
    = playerHistory w
  ∧ statusMessages
      (exec (updateServerStatus config validate toLocaleTimeString raster env s) w)
    = statusMessages w.
Proof.
  intros Hres. destruct (tick_exact env s w) as (Hph & Hev & _).
  destruct (tick_summary env s w) as (_ & _ & Hsm & _).
  rewrite Hph, Hsm, Hres. split; [by apply Hev|done].
Qed.

(** X11. The payload that a tick delivers carries the chart exactly when
    the display is in chart mode with the chart enabled, the server is
    online and the renderer returned a buffer for the history as the tick
    left it (its own sample included): then the chart is the only attachment
    and the embed shows it.  In every other case, a renderer failure
    included, there is no attachment, and the embed shows the banner when
    the display is in banner mode with the banner enabled and no image
    otherwise. *)
Theorem tick_payload_image env s w p :
  p ∈ omap payload_of
        (events (updateServerStatus config validate toLocaleTimeString raster env s)
           w) →
  let chart :=
    if chart_mode s && probe_online env
    then rendered toLocaleTimeString raster (channelId s)
           (chart_color (chart (display s)))
           (playerHistory
              (exec (updateServerStatus config validate toLocaleTimeString raster
                       env s) w))
    else Ok None in
  files p = match chart with
            | Ok (Some chartBuffer) => [chart_attachment chartBuffer]
            | _ => []
            end
  ∧ ∃ e, embeds p = [e]
         ∧ image e
           = match chart with
             | Ok (Some _) => Some "attachment://player-chart.png"
             | _ =>
                 if String.eqb (display_type (display s)) "banner"
                    && banner_enabled (banner (display s))
                 then Some (banner_url (banner (display s)))
                 else None
             end.
Proof.
  intros Hp. destruct (tick_exact env s w) as (_ & _ & H).
  destruct (H p Hp) as (_ & _ & Hf & e & He & _ & _ & _ & _ & Hi & _).
  cbv zeta. split; [done|]. by exists e.
Qed.

(** X12. The payload that a tick delivers has no text content and one
    embed, with the configured title and footer, the online or offline color
    according to the probe, the clock reading at which the status query
    settled as timestamp, and the fields Server and Status followed by
    Players, Version, Ping, MOTD (and Next Update when enabled) when online
    and by Error when offline; the MOTD and Error values are never empty. *)
Theorem tick_payload_fields env s w p :
  p ∈ omap payload_of
        (events (updateServerStatus config validate toLocaleTimeString raster env s)
           w) →
  content p = None
  ∧ ephemeral p = false
  ∧ ∃ e,
      embeds p = [e]
      ∧ title e = embed_title (config_embed config)
      ∧ color e = (if probe_online env then colors_online (config_embed config)
                   else colors_offline (config_embed config))
      ∧ footer e = Some (embed_footer (config_embed config))
      ∧ stamp e = Some (resumed_at (util_status env))
      ∧ fname <$> fields e
        = ["📡 Server"; "🔌 Status"]
          ++ (if probe_online env
              then ["👥 Players"; "🏷️ Version"; "📊 Ping"; "📝 MOTD"]
                   ++ (if showNextUpdate (display s) then ["⏱️ Next Update"] else [])
              else ["❌ Error"])
      ∧ ∀ f, f ∈ fields e →
             fname f = "📝 MOTD" ∨ fname f = "❌ Error" →
             fvalue f ≠ EmptyString.
Proof.
  intros Hp. destruct (tick_exact env s w) as (_ & _ & H).
  destruct (H p Hp) as (Hc & Hph & _ & e & He & Ht & Hcol & Hfo & Hst & _ & Hn & Hv).
  split_and!; [done|done|]. by exists e.
Qed.

(** X13. An interaction that is not a command, or a command other than
    [status], is ignored: no reply, no event, no change. *)
Theorem other_interactions_ignored env i w :
  isCommand i && String.eqb (commandName i) "status" = false →
  interactionCreate config toLowerCase validate toLocaleTimeString raster env i w
  = (Ok tt, w).
Proof.
  intros Hno.
  destruct (interactionCreate config toLowerCase validate toLocaleTimeString raster
              env i w) as [r w'] eqn:E.
  destruct (command_run env i w r w' E) as (_ & _ & _ & _ & _ & H & _).
  by destruct (H Hno) as [-> ->].
Qed.

(** X14. The status command absorbs a failing probe or renderer.  When it
    replies, its result is the outcome of the reply, and it has probed the
    matched server once, built the embed and rendered the chart when in
    chart mode with the chart enabled and the server online; for an unknown
    server the reply is its only step.  It ends without a reply only when a
    call of the embed builder throws: then it rejects with that error, with
    the build as its last step.  With a builder that accepts every call it
    always replies. *)
Theorem status_command_rejects_in_builder_or_reply env i w :
  isCommand i = true →
  commandName i = "status" →
  (StReply
   ∈ steps (events (interactionCreate config toLowerCase validate
                      toLocaleTimeString raster env i) w) →
   (interactionCreate config toLowerCase validate toLocaleTimeString raster
      env i w).1
   = outcome (interaction_reply env)
   ∧ steps (events (interactionCreate config toLowerCase validate
                      toLocaleTimeString raster env i) w)
     = match List.find (λ s, String.eqb (toLowerCase (name s))
                                        (toLowerCase (options_server i)))
                       (minecraft_servers config) with
       | None => [StReply]
       | Some server =>
           [StProbe; StBuild]
           ++ (if chart_mode server && probe_online env then [StRender] else [])
           ++ [StReply]
       end)
  ∧ (StReply
     ∉ steps (events (interactionCreate config toLowerCase validate
                        toLocaleTimeString raster env i) w) →
     steps (events (interactionCreate config toLowerCase validate
                      toLocaleTimeString raster env i) w)
     = [StProbe; StBuild]
     ∧ ∃ error e call,
         (interactionCreate config toLowerCase validate toLocaleTimeString raster
            env i w).1 = Throw error
         ∧ validate e call = Some error)
  ∧ ((∀ e call, validate e call = None) →
     StReply
     ∈ steps (events (interactionCreate config toLowerCase validate
                        toLocaleTimeString raster env i) w)).
Proof.
  intros Hc Hn. unfold events, exec.
  destruct (interactionCreate config toLowerCase validate toLocaleTimeString raster
              env i w) as [r w'] eqn:E.
  destruct (command_run env i w r w' E) as (_ & _ & _ & _ & _ & _ & Hst & Hall & _).
  rewrite Hc, Hn in Hst, Hall. specialize (Hst eq_refl). cbn [fst snd].
  assert (Hlast : ∀ l : list Step, StReply ∈ l ++ [StReply])
    by (intros l; apply elem_of_app; right; by left).
  assert (Hbuild : StReply ∉ [StProbe; StBuild]) by not_in_list.
  split_and!.
  - intros Hin. destruct (List.find _ _) as [server|].
    + destruct Hst as (_ & [[-> ->]|[Hs _]]); [done|].
      rewrite Hs in Hin. by destruct Hbuild.
    + destruct Hst as [-> ->]. done.
  - intros Hnot. destruct (List.find _ _) as [server|].
    + destruct Hst as (_ & [[_ Hs]|[Hs (error & e & call & -> & Hv)]]).
      * destruct Hnot. rewrite Hs, app_assoc. apply Hlast.
      * split; [done|]. by exists error, e, call.
    + destruct Hst as [_ Hs]. destruct Hnot. rewrite Hs. by left.
  - intros Hv. by apply Hall.
Qed.

(** X15. The reply of the status command for a configured server is
    ephemeral, without text content, with one embed titled after the server,
    colored by the probe result and footed as configured.  It carries the
    chart under the same conditions as a tick, rendered from the history as
    it is, and otherwise shows the banner in banner mode; its fields are
    Status, Players, Ping, Version (and Next Update when enabled) when online
    and Status, Error when offline, with a non-empty Error value. *)
Theorem status_command_payload env i w server p :
  List.find (λ s, String.eqb (toLowerCase (name s)) (toLowerCase (options_server i)))
            (minecraft_servers config) = Some server →
  p ∈ omap payload_of
        (events (interactionCreate config toLowerCase validate toLocaleTimeString
                   raster env i) w) →
  let chart :=
    if chart_mode server && probe_online env
    then rendered toLocaleTimeString raster (channelId server)
           (chart_color (chart (display server))) (playerHistory w)
    else Ok None in
  content p = None
  ∧ ephemeral p = true
  ∧ files p = match chart with
              | Ok (Some chartBuffer) => [chart_attachment chartBuffer]
              | _ => []
              end
  ∧ ∃ e,
      embeds p = [e]
      ∧ title e = name server +:+ " Status"
      ∧ color e = (if probe_online env then colors_online (config_embed config)
                   else colors_offline (config_embed config))
      ∧ footer e = Some (embed_footer (config_embed config))
      ∧ image e
        = match chart with
          | Ok (Some _) => Some "attachment://player-chart.png"
          | _ =>
              if String.eqb (display_type (display server)) "banner"
                 && banner_enabled (banner (display server))
              then Some (banner_url (banner (display server)))
              else None
          end
      ∧ fname <$> fields e
        = (if probe_online env
           then ["🔌 Status"; "👥 Players"; "📊 Ping"; "🏷️ Version"]
                ++ (if showNextUpdate (display server) then ["⏱️ Next Update"] else [])
           else ["🔌 Status"; "❌ Error"])
      ∧ ∀ f, f ∈ fields e → fname f = "❌ Error" → fvalue f ≠ EmptyString.
Proof.
  intros Hs. unfold events, exec.
  destruct (interactionCreate config toLowerCase validate toLocaleTimeString raster
              env i w) as [r w'] eqn:E.
  destruct (command_run env i w r w' E) as (_ & _ & _ & _ & _ & _ & _ & _ & H).
  cbn [fst snd]. intros Hp. destruct (H p Hp) as [Heph Hrest].
  rewrite Hs in Hrest. destruct Hrest as (Hc & Hf & Hrest).
  cbv zeta. by split_and!.
Qed.

Lemma rendered_short serverId color ph :
  (length (default [] (ph !! serverId)) < 2)%nat →
  rendered toLocaleTimeString raster serverId color ph = Ok None.
Proof.
  intros Hlt. unfold rendered, bare_world, generatePlayerChart. run_body.
  by rewrite bool_decide_eq_true_2.
Qed.

(** X20. The first tick for a channel never carries a chart: when the
    channel has no samples yet, whatever the tick observes, the payload it
    delivers has no attachment (a chart needs two samples, and a tick adds
    at most one). *)
Theorem first_tick_has_no_chart env s w p :
  series w (channelId s) = [] →
  p ∈ omap payload_of
        (events (updateServerStatus config validate toLocaleTimeString raster env s)
           w) →
  files p = [].
Proof.
  intros He Hp. destruct (tick_exact env s w) as (Hph & _ & H).
  destruct (H p Hp) as (_ & _ & -> & _).
  destruct (chart_mode s && probe_online env); [|done].
  rewrite rendered_short; [done|]. rewrite Hph.
  destruct (resolved env); [|by unfold series in He; rewrite He; simpl; lia].
  destruct (outcome (util_status env)) as [r|];
    [|by unfold series in He; rewrite He; simpl; lia].
  pose proof (update_length (channelId s) (players_online r)
                (historyHours (chart (display s)))
                (bare_world (resumed_at (util_status env))
                   (initialized (channelId s) (playerHistory w)))) as (Hl & _).
  unfold series in Hl, He. cbn [playerHistory bare_world] in Hl.
  rewrite (proj1 (initialized_series (channelId s) (playerHistory w) (channelId s))),
    He in Hl.
  unfold recorded. simpl in Hl. lia.
Qed.

(** X21. Two reconciles for the same destination that overlap, in a world
    without a handle for it: both find none and each sends a message; the
    handle of the first send is stored when it settles and is replaced by
    the handle of the second (the last write wins).  Neither rejects. *)
Theorem overlapping_reconciles_last_write_wins
    envA sA channelA payloadA envB sB channelB payloadB w messageA messageB :
  channelId sA = channelId sB →
  statusMessages w !! channelId sA = None →
  outcome (channel_send envA) = Ok messageA →
  outcome (channel_send envB) = Ok messageB →
  (reconcile_overlapped envA sA channelA payloadA envB sB channelB payloadB w).1
  = Ok tt
  ∧ deliveries
      (events (reconcile_overlapped envA sA channelA payloadA
                 envB sB channelB payloadB) w)
    = [inr channelA; inr channelB]
  ∧ statusMessages
      (exec (pendingA ← reconcile_call sA channelA payloadA;
             pendingB ← reconcile_call sB channelB payloadB;
             reconcile_resume envA sA pendingA) w)
      !! channelId sA = Some messageA
  ∧ statusMessages
      (exec (reconcile_overlapped envA sA channelA payloadA
               envB sB channelB payloadB) w)
      !! channelId sA = Some messageB.
Proof.
  intros Hsame Hnone HA HB.
  unfold reconcile_overlapped, events, exec. destruct w as [t sm ph tr].
  cbn [statusMessages] in Hnone.
  cbv [mbind M_bind]. rewrite !reconcile_call_run. world_simpl.
  rewrite <- Hsame, Hnone. rewrite !reconcile_resume_run. world_simpl.
  rewrite HA, HB, <- Hsame. world_simpl.
  split_and!; [done| |by rewrite lookup_insert_eq..].
  rewrite <- !app_assoc, drop_app_length. done.
Qed.

End BotProperties.

(** ** Scheduler: [initializeStatusUpdates] *)

Lemma clear_all_spec (l : list (string * nat)) t :
  let t' := foldr (λ entry t, clearInterval entry.2 t) t l in
  updateIntervals t' = updateIntervals t
  ∧ next_handle t' = next_handle t
  ∧ ∀ h, scheduled t' !! h = if decide (h ∈ l.*2) then None else scheduled t !! h.
Proof.
  induction l as [|[k h0] l IH]; cbv zeta.
  - split_and!; [done|done|]. intros h. case_decide as Hin; [|done].
    by apply elem_of_nil in Hin.
  - destruct IH as (IH1 & IH2 & IH3). simpl. split_and!; [done|done|].
    intros h. destruct (decide (h0 = h)) as [->|Hne].
    + rewrite lookup_delete_eq. rewrite decide_True; [done|]. by left.
    + rewrite lookup_delete_ne by done. rewrite IH3.
      destruct (decide (h ∈ l.*2)) as [Hin|Hnin].
      * rewrite decide_True; [done|]. by right.
      * rewrite decide_False; [done|].
        intros [?|?]%elem_of_cons; [congruence|done].
Qed.

Lemma start_all_spec servers : ∀ t out,
  let r := foldl startServer (t, out) servers in
  next_handle r.1 = (next_handle t + length servers)%nat
  ∧ launched r.2 = launched out ++ servers
  ∧ (∀ h, scheduled r.1 !! h
          = if decide (next_handle t ≤ h < next_handle t + length servers)%nat
            then servers !! (h - next_handle t)%nat
            else scheduled t !! h)
  ∧ (∀ k h, updateIntervals r.1 !! k = Some h →
            updateIntervals t !! k = Some h
            ∨ (next_handle t ≤ h < next_handle t + length servers)%nat)
  ∧ (∀ k, k ∉ channelId <$> servers →
          updateIntervals r.1 !! k = updateIntervals t !! k)
  ∧ (∀ i s, servers !! i = Some s →
            (∀ j s', (i < j)%nat → servers !! j = Some s' →
                     channelId s' ≠ channelId s) →
            updateIntervals r.1 !! channelId s = Some (next_handle t + i)%nat).
Proof.
  induction servers as [|s servers IH]; intros t out; cbv zeta.
  - simpl. split_and!.
    + lia.
    + by rewrite app_nil_r.
    + intros h. case_decide; [lia|done].
    + intros k h ?. by left.
    + done.
    + done.
  - simpl foldl.
    destruct (IH (startServer (t, out) s).1 (startServer (t, out) s).2)
      as (I1 & I2 & I3 & I4 & I5 & I6).
    rewrite <- surjective_pairing in I1, I2, I3, I4, I5, I6.
    set (r := foldl startServer (startServer (t, out) s) servers) in *.
    cbn [startServer setInterval fst snd next_handle scheduled updateIntervals]
      in I1, I2, I3, I4, I5, I6.
    split_and!.
    + rewrite I1. simpl. lia.
    + rewrite I2. unfold launched. rewrite omap_app. simpl.
      by rewrite <- app_assoc.
    + intros h. rewrite I3. simpl length.
      destruct (decide (h = next_handle t)) as [->|Hne].
      * rewrite decide_False by lia. rewrite decide_True by lia.
        rewrite lookup_insert_eq. by rewrite Nat.sub_diag.
      * rewrite lookup_insert_ne by done.
        repeat case_decide; try lia; try done.
        replace (h - next_handle t)%nat with (S (h - S (next_handle t))) by lia.
        done.
    + intros k h Hk. apply I4 in Hk as [Hk|Hk]; [|right; simpl; lia].
      destruct (decide (channelId s = k)) as [<-|Hne].
      * rewrite lookup_insert_eq in Hk. injection Hk as <-. right. simpl. lia.
      * rewrite lookup_insert_ne in Hk by done. by left.
    + intros k Hk. rewrite fmap_cons in Hk. apply not_elem_of_cons in Hk as [Hne Hk].
      rewrite I5 by done. by rewrite lookup_insert_ne.
    + intros i s0 Hi Hlater. destruct i as [|i]; simpl in Hi.
      * injection Hi as <-.
        assert (Hnot : channelId s ∉ channelId <$> servers).
        { intros (s' & Heq & Hin)%list_elem_of_fmap.
          apply list_elem_of_lookup in Hin as [j Hj].
          by apply (Hlater (S j) s' ltac:(lia) Hj). }
        rewrite I5 by done. rewrite lookup_insert_eq. f_equal. lia.
      * replace (next_handle t + S i)%nat with (S (next_handle t) + i)%nat by lia.
        apply I6; [done|]. intros j s' Hij Hj.
        apply (Hlater (S j) s' ltac:(lia) Hj).
Qed.

Lemma registered_handle (t : Timers) h :
  h ∈ (map_to_list (updateIntervals t)).*2 ↔ ∃ k, updateIntervals t !! k = Some h.
Proof.
  rewrite list_elem_of_fmap. split.
  - intros ([k h'] & -> & Hin). exists k. by apply elem_of_map_to_list.
  - intros [k Hk]. exists (k, h). split; [done|]. by apply elem_of_map_to_list.
Qed.

Lemma initialize_spec config t :
  let n := next_handle t in
  let servers := minecraft_servers config in
  let r := initializeStatusUpdates config t in
  next_handle r.1 = (n + length servers)%nat
  ∧ launched r.2 = servers
  ∧ (∀ h, scheduled r.1 !! h
          = if decide (n ≤ h < n + length servers)%nat
            then servers !! (h - n)%nat
            else if decide (h ∈ (map_to_list (updateIntervals t)).*2) then None
                 else scheduled t !! h)
  ∧ (∀ k h, updateIntervals r.1 !! k = Some h →
            (n ≤ h < n + length servers)%nat ∧ k ∈ channelId <$> servers)
  ∧ (∀ i s, servers !! i = Some s →
            (∀ j s', (i < j)%nat → servers !! j = Some s' →
                     channelId s' ≠ channelId s) →
            updateIntervals r.1 !! channelId s = Some (n + i)%nat).
Proof.
  cbv zeta. unfold initializeStatusUpdates.
  destruct (clear_all_spec (map_to_list (updateIntervals t)) t) as (C1 & C2 & C3).
  set (c := foldr (λ entry t, clearInterval entry.2 t) t
                  (map_to_list (updateIntervals t))) in *.
  destruct (start_all_spec (minecraft_servers config)
              {| updateIntervals := ∅; scheduled := scheduled c;
                 next_handle := next_handle c |} [])
    as (I1 & I2 & I3 & I4 & I5 & I6).
  cbn [next_handle scheduled updateIntervals] in *. rewrite C2 in *.
  split_and!; [done|done|..].
  - intros h. rewrite I3. case_decide; [done|]. by rewrite C3.
  - intros k h Hk. split.
    + by destruct (I4 k h Hk) as [?|?].
    + destruct (decide (k ∈ channelId <$> minecraft_servers config)); [done|].
      rewrite I5 in Hk by done. by rewrite lookup_empty in Hk.
  - done.
Qed.

(** X16. Re-initialising stops every timer that was registered: none of the
    handles held in [updateIntervals] is live afterwards. *)
Theorem initialize_stops_registered_timers config t k h :
  timers_wf t →
  updateIntervals t !! k = Some h →
  scheduled (initializeStatusUpdates config t).1 !! h = None.
Proof.
  intros [Hwf _] Hk. destruct (initialize_spec config t) as (_ & _ & H & _).
  rewrite H. specialize (Hwf k h Hk). rewrite decide_False by lia.
  rewrite decide_True; [done|]. apply registered_handle. by exists k.
Qed.

Lemma initialize_invariants config t :
  timers_wf t →
  all_registered t →
  (∀ h, scheduled (initializeStatusUpdates config t).1 !! h
        = if decide (next_handle t ≤ h
                     < next_handle t + length (minecraft_servers config))%nat
          then minecraft_servers config !! (h - next_handle t)%nat
          else None)
  ∧ timers_wf (initializeStatusUpdates config t).1
  ∧ (NoDup (channelId <$> minecraft_servers config) →
     (∀ i s, minecraft_servers config !! i = Some s →
        updateIntervals (initializeStatusUpdates config t).1 !! channelId s
        = Some (next_handle t + i)%nat)
     ∧ all_registered (initializeStatusUpdates config t).1).
Proof.
  intros [Hwf1 Hwf2] Hreg.
  destruct (initialize_spec config t) as (H1 & H2 & H3 & H4 & H5).
  assert (Hlive : ∀ h, scheduled (initializeStatusUpdates config t).1 !! h
            = if decide (next_handle t ≤ h
                         < next_handle t + length (minecraft_servers config))%nat
              then minecraft_servers config !! (h - next_handle t)%nat
              else None).
  { intros h. rewrite H3. case_decide; [done|]. case_decide as Hh; [done|].
    destruct (scheduled t !! h) eqn:E; [|done].
    destruct (Hreg h) as [k Hk]; [by eexists|]. exfalso.
    apply Hh, registered_handle. by exists k. }
  split_and!; [done|..].
  - split.
    + intros k h Hk. rewrite H1. by destruct (H4 k h Hk) as [? _]; lia.
    + intros h [s Hs]. rewrite Hlive in Hs. rewrite H1.
      case_decide; [lia|done].
  - intros Hnd.
    assert (Hreg' : ∀ i s, minecraft_servers config !! i = Some s →
              updateIntervals (initializeStatusUpdates config t).1 !! channelId s
              = Some (next_handle t + i)%nat).
    { intros i s Hi. apply H5; [done|]. intros j s' Hij Hj Heq.
      assert (i = j); [|lia].
      eapply (NoDup_lookup _ i j (channelId s) Hnd);
        rewrite list_lookup_fmap; [by rewrite Hi|rewrite Hj; simpl; by rewrite Heq]. }
    split; [done|].
    intros h [s Hs]. rewrite Hlive in Hs. case_decide as Hr; [|done].
    exists (channelId s). rewrite (Hreg' (h - next_handle t)%nat s Hs).
    f_equal. lia.
Qed.

(** X17. When every live timer is registered, initialising starts one immediate
    tick and one timer per configured server, in configuration order, and
    leaves no other timer live. *)
Theorem initialize_schedules_each_server config t :
  timers_wf t →
  all_registered t →
  launched (initializeStatusUpdates config t).2 = minecraft_servers config
  ∧ (∀ h, scheduled (initializeStatusUpdates config t).1 !! h
          = if decide (next_handle t ≤ h
                       < next_handle t + length (minecraft_servers config))%nat
            then minecraft_servers config !! (h - next_handle t)%nat
            else None)
  ∧ timers_wf (initializeStatusUpdates config t).1.
Proof.
  intros Hwf Hreg.
  destruct (initialize_spec config t) as (_ & H2 & _).
  destruct (initialize_invariants config t Hwf Hreg) as (H3 & H4 & _).
  done.
Qed.

(** X18. With pairwise distinct channel ids, every configured server's timer is
    registered under its channel id, nothing else is registered, and every
    live timer is registered again: the state a later initialisation needs
    in order to stop them all. *)
Theorem initialize_registers_each_timer config t :
  NoDup (channelId <$> minecraft_servers config) →
  timers_wf t →
  all_registered t →
  (∀ i s, minecraft_servers config !! i = Some s →
     updateIntervals (initializeStatusUpdates config t).1 !! channelId s
     = Some (next_handle t + i)%nat)
  ∧ (∀ k, is_Some (updateIntervals (initializeStatusUpdates config t).1 !! k) →
          k ∈ channelId <$> minecraft_servers config)
  ∧ all_registered (initializeStatusUpdates config t).1.
Proof.
  intros Hnd Hwf Hreg.
  destruct (initialize_spec config t) as (_ & _ & _ & H4 & _).
  destruct (initialize_invariants config t Hwf Hreg) as (_ & _ & H).
  destruct (H Hnd) as [H1 H2]. split_and!; [done| |done].
  intros k [h Hk]. by destruct (H4 k h Hk).
Qed.

(** X19. However often the bot initialises its status updates, starting with
    no timers and with pairwise distinct channel ids, the live timers are
    exactly one per configured server: no server is ever scheduled twice. *)
Theorem reinitialize_never_duplicates config n :
  NoDup (channelId <$> minecraft_servers config) →
  ∃ base,
    ∀ h, scheduled (Nat.iter (S n) (λ t, (initializeStatusUpdates config t).1)
                      no_timers) !! h
         = if decide (base ≤ h < base + length (minecraft_servers config))%nat
           then minecraft_servers config !! (h - base)%nat
           else None.
Proof.
  intros Hnd.
  assert (Hinv : ∀ m, timers_wf (Nat.iter m (λ t, (initializeStatusUpdates config t).1)
                                   no_timers)
                      ∧ all_registered
                          (Nat.iter m (λ t, (initializeStatusUpdates config t).1)
                             no_timers)).
  { induction m as [|m [IH1 IH2]].
    - split; [split|]; simpl.
      + intros k h Hh. simpl in Hh. by rewrite lookup_empty in Hh.
      + intros h [? Hh]. simpl in Hh. by rewrite lookup_empty in Hh.
      + intros h [? Hh]. simpl in Hh. by rewrite lookup_empty in Hh.
    - simpl. destruct (initialize_invariants config _ IH1 IH2) as (_ & ? & H).
      split; [done|]. by apply H. }
  destruct (Hinv n) as [Hwf Hreg].
  exists (next_handle (Nat.iter n (λ t, (initializeStatusUpdates config t).1)
                         no_timers)).
  simpl. by apply initialize_invariants.
Qed.

(** ** Examples *)

Lemma offline_tick_leaves_history_witness :
  (checkServerStatus offline_env (ip example_server) (port example_server)
     example_world).1 = Ok (Offline "Socket timed out")
  ∧ playerHistory
      (exec (updateServerStatus example_config example_validate example_labels example_raster
               offline_env example_server) two_sample_world)
    = playerHistory two_sample_world.
Proof.
  assert (H : (checkServerStatus offline_env (ip example_server)
                 (port example_server) example_world).1
              = Ok (Offline "Socket timed out")) by reflexivity.
  split; [exact H|].
  exact (proj1 (offline_tick_leaves_history example_config example_validate example_labels
                  example_raster offline_env example_server two_sample_world
                  example_world "Socket timed out" H)).
Defined.

(** C7, as the claim states it, fails: on a tick whose channel resolves
    the destination lookup is the first step, before the probe; and on a
    tick whose channel does not resolve there is no probe at all. *)
Lemma tick_order_counterexample :
  steps (events (updateServerStatus example_config example_validate example_labels example_raster
                   example_env example_server) two_sample_world)
  = [StResolve; StProbe; StRecord; StBuild; StRender; StDeliver]
  ∧ occurs_before StProbe StResolve
      (steps (events (updateServerStatus example_config example_validate example_labels
                        example_raster example_env example_server)
                     two_sample_world))
    = false
  ∧ steps (events (updateServerStatus example_config example_validate example_labels example_raster
                     unresolved_env example_server) two_sample_world)
    = [StResolve].
Proof. vm_compute. done. Qed.

(** A tick that finds the message [m1] stored and whose edit is rejected:
    the one delivery attempt is the edit of [m1], and [m1] stays stored,
    although a send would have returned [m2]. *)
Lemma reconcile_keeps_one_handle_witness :
  let tick := updateServerStatus example_config example_validate example_labels
                example_raster failing_edit_env example_server in
  deliveries (events tick stored_world) = [inl {| messageId := "m1" |}]
  ∧ statusMessages (exec tick stored_world) !! "42" = Some {| messageId := "m1" |}.
Proof.
  intros tick.
  destruct (reconcile_keeps_one_handle example_config example_validate
              example_labels example_raster failing_edit_env example_server
              stored_world {| channelRef := "42" |} example_tick_payload
              (PendingEdit {| messageId := "m1" |}) stored_world)
    as (_ & _ & _ & _ & Hd & Hsm & _).
  subst tick. rewrite Hd, Hsm. split; reflexivity.
Defined.

Lemma chart_render_threshold_witness :
  (2 ≤ length (series two_sample_world "42"))%nat
  ∧ (∀ spec, ∃ buffer, example_raster spec = Ok buffer ∧ buffer ≠ [])
  ∧ ∃ buffer,
      (generatePlayerChart example_labels example_raster "42" None
         two_sample_world).1 = Ok (Some buffer)
      ∧ buffer ≠ [].
Proof.
  assert (H1 : (2 ≤ length (series two_sample_world "42"))%nat)
    by (vm_compute; lia).
  assert (H2 : ∀ spec, ∃ buffer, example_raster spec = Ok buffer ∧ buffer ≠ [])
    by (intros spec; eexists; split; [reflexivity|discriminate]).
  split; [exact H1|]. split; [exact H2|].
  destruct (proj2 (chart_render_threshold example_labels example_raster "42" None
                     two_sample_world) H1 H2) as (buffer & E & Hne & _).
  exists buffer. split; [exact E|exact Hne].
Defined.

Lemma status_command_reads_only_witness :
  InteractionReply example_reply
  ∈ events (interactionCreate example_config toLowerCase_ascii example_validate example_labels example_raster
              example_env status_interaction) two_sample_world
  ∧ ephemeral example_reply = true
  ∧ ∀ a, a ∈ files example_reply →
      ∃ server,
        server ∈ minecraft_servers example_config
        ∧ (generatePlayerChart example_labels example_raster (channelId server)
             (chart_color (chart (display server))) two_sample_world).1
          = Ok (Some (attachment a)).
Proof.
  assert (H : InteractionReply example_reply
              ∈ events (interactionCreate example_config toLowerCase_ascii example_validate example_labels
                          example_raster example_env status_interaction)
                       two_sample_world)
    by (vm_compute; repeat constructor).
  split; [exact H|].
  exact (proj2 (proj2 (proj2 (proj2 (proj2
           (status_command_reads_only example_config toLowerCase_ascii example_validate example_labels
              example_raster example_env status_interaction
              two_sample_world))))) example_reply H).
Defined.

Lemma status_command_unknown_server_witness :
  isCommand unknown_interaction = true
  ∧ commandName unknown_interaction = "status"
  ∧ (∀ s, s ∈ minecraft_servers example_config →
          toLowerCase_ascii (name s)
          ≠ toLowerCase_ascii (options_server unknown_interaction))
  ∧ steps (events (interactionCreate example_config toLowerCase_ascii
                     example_validate example_labels example_raster
                     example_env unknown_interaction) two_sample_world)
    = [StReply].
Proof.
  assert (H1 : isCommand unknown_interaction = true) by reflexivity.
  assert (H2 : commandName unknown_interaction = "status") by reflexivity.
  assert (H3 : ∀ s, s ∈ minecraft_servers example_config →
                    toLowerCase_ascii (name s)
                    ≠ toLowerCase_ascii (options_server unknown_interaction)).
  { intros s Hin Hs. apply list_elem_of_singleton in Hin. subst s.
    discriminate Hs. }
  split; [exact H1|]. split; [exact H2|]. split; [exact H3|].
  rewrite (proj1 (proj1 (status_command_unknown_server example_config
                           toLowerCase_ascii example_validate example_labels
                           example_raster example_env
                           unknown_interaction two_sample_world H1 H2) H3)).
  reflexivity.
Defined.

(** The request [SURVIVAL] matches the configured name [Survival]: on
    ASCII names the comparison after lowering is the comparison up to the
    case of letters. *)
Example ascii_names_match :
  same_ignoring_case (name example_server) (options_server status_interaction)
  ∧ head (events (interactionCreate example_config toLowerCase_ascii
                    example_validate example_labels example_raster
                    example_env status_interaction) two_sample_world)
    = Some (UtilStatus "mc.example.org" 25565).
Proof.
  split; [by apply toLowerCase_ascii_spec|]. vm_compute. reflexivity.
Qed.

(** A first tick that finds the server online with 5 of 20 players records
    one sample of value 5 and reports the ratio. *)
Example first_online_tick :
  series (exec (updateServerStatus example_config example_validate example_labels example_raster
                  example_env example_server) example_world) "42"
  = [{| timestamp := 10; count := 5 |}]
  ∧ field_values
      (events (updateServerStatus example_config example_validate example_labels example_raster
                 example_env example_server) example_world)
    = ["Survival (mc.example.org:25565)"; "✅ Online"; "5/20"; "1.20.4"; "33ms";
       "Welcome"; "<t:60:R>"].
Proof. vm_compute. done. Qed.

(** A tick whose probe fails reports Offline with the captured message. *)
Example offline_tick_payload :
  field_values
    (events (updateServerStatus example_config example_validate example_labels example_raster
               offline_env example_server) two_sample_world)
  = ["Survival (mc.example.org:25565)"; "❌ Offline"; "Socket timed out"].
Proof. vm_compute. done. Qed.

(** A status response with an empty version name: the builder refuses the
    empty field value, so the tick rejects after it has recorded the sample,
    and nothing is delivered. *)
Example empty_version_tick :
  (updateServerStatus example_config example_validate example_labels
     example_raster empty_version_env example_server example_world).1
  = Throw {| message := "Received one or more errors" |}
  ∧ steps (events (updateServerStatus example_config example_validate
                     example_labels example_raster empty_version_env
                     example_server) example_world)
    = [StResolve; StProbe; StRecord; StBuild]
  ∧ series (exec (updateServerStatus example_config example_validate
                    example_labels example_raster empty_version_env
                    example_server) example_world) "42"
    = [{| timestamp := 10; count := 5 |}].
Proof. vm_compute. done. Qed.

(** A footer that the builder refuses: the command handler rejects
    before it replies, and the tick before it delivers. *)
Example refused_footer :
  (interactionCreate text_footer_config toLowerCase_ascii example_validate
     example_labels example_raster example_env status_interaction
     two_sample_world).1
  = Throw {| message := "Expected an object" |}
  ∧ steps (events (interactionCreate text_footer_config toLowerCase_ascii
                     example_validate example_labels example_raster example_env
                     status_interaction) two_sample_world)
    = [StProbe; StBuild]
  ∧ steps (events (updateServerStatus text_footer_config example_validate
                     example_labels example_raster example_env example_server)
                  two_sample_world)
    = [StResolve; StProbe; StRecord; StBuild].
Proof. vm_compute. done. Qed.

(** ** Examples for the further properties *)

Lemma record_touches_one_series_witness :
  "7" ≠ "42"
  ∧ playerHistory (exec (updatePlayerHistory "42" 9 None) two_sample_world) !! "7"
    = playerHistory two_sample_world !! "7".
Proof.
  assert (H : "7" ≠ "42") by discriminate.
  split; [exact H|].
  exact (proj1 (proj2 (record_touches_one_series "42" 9 None two_sample_world))
           "7" H).
Defined.

Lemma record_all_length_bounds_witness :
  let obs := [(0, 5); (60000, 6); (3600000, 8); (7200000, 3); (10800000, 4)] in
  0 ≤ default 24 (Some 2)
  ∧ Z.of_nat (length (series example_world "42")) ≤ default 24 (Some 2)
  ∧ Z.of_nat (length (series (record_all "42" (Some 2) obs example_world) "42"))
    ≤ default 24 (Some 2).
Proof.
  intros obs.
  assert (H1 : 0 ≤ default 24 (Some 2)) by (simpl; lia).
  assert (H2 : Z.of_nat (length (series example_world "42")) ≤ default 24 (Some 2))
    by (vm_compute; discriminate).
  split; [exact H1|]. split; [exact H2|].
  exact (proj2 (record_all_length_bounds "42" (Some 2) obs example_world) H1 H2).
Defined.

Lemma record_all_zero_capacity_witness :
  default 24 (Some 0) ≤ 0
  ∧ series example_world "42" = []
  ∧ series (record_all "42" (Some 0) [(0, 5); (3600000, 8)] example_world) "42" = [].
Proof.
  assert (H1 : default 24 (Some 0) ≤ 0) by (simpl; lia).
  assert (H2 : series example_world "42" = []) by reflexivity.
  split; [exact H1|]. split; [exact H2|].
  exact (record_all_zero_capacity "42" (Some 0) [(0, 5); (3600000, 8)]
           example_world H1 H2).
Defined.

Lemma record_newest_is_observation_witness :
  1 ≤ default 24 None
  ∧ ∃ newest,
      last (series (exec (updatePlayerHistory "42" 9 None) two_sample_world) "42")
      = Some newest
      ∧ count newest = 9
      ∧ clock two_sample_world - timestamp newest < 3600000.
Proof.
  assert (H : 1 ≤ default 24 None) by (simpl; lia).
  split; [exact H|].
  exact (record_newest_is_observation "42" 9 None two_sample_world H).
Defined.

Lemma reachable_timestamps_ascend_witness :
  let w := record_all "42" None [(0, 5); (600000, 8); (7200000, 3)] example_world in
  reachable (playerHistory w)
  ∧ (1 - 0) * 3600000 ≤ 7200000 - 0.
Proof.
  intros w.
  assert (Hr : reachable (playerHistory w)).
  { unfold w, record_all. simpl. unfold record_at.
    repeat apply reachable_update. simpl. apply reachable_empty. }
  split; [exact Hr|].
  exact (reachable_timestamps_ascend (playerHistory w) "42"
           [{| timestamp := 0; count := 8 |}; {| timestamp := 7200000; count := 3 |}]
           0 1 {| timestamp := 0; count := 8 |}
           {| timestamp := 7200000; count := 3 |}
           Hr eq_refl (le_n 1) eq_refl eq_refl).
Defined.

Lemma initialize_keeps_series_witness :
  is_Some (playerHistory two_sample_world !! "42")
  ∧ exec (initializePlayerHistory "42") two_sample_world = two_sample_world.
Proof.
  assert (H : is_Some (playerHistory two_sample_world !! "42"))
    by (eexists; reflexivity).
  split; [exact H|].
  exact (proj1 (proj2 (proj2 (proj2
           (initialize_keeps_series "42" two_sample_world)))) H).
Defined.

Lemma tick_rejects_only_in_builder_witness :
  (updateServerStatus example_config example_validate example_labels
     example_raster empty_version_env example_server example_world).1
  = Throw {| message := "Received one or more errors" |}
  ∧ deliveries
      (events (updateServerStatus example_config example_validate example_labels
                 example_raster empty_version_env example_server) example_world)
    = []
  ∧ (∀ e call, accept_all e call = None)
  ∧ (updateServerStatus example_config accept_all example_labels
       example_raster empty_version_env example_server example_world).1
    = Ok tt.
Proof.
  assert (H1 : (updateServerStatus example_config example_validate example_labels
                  example_raster empty_version_env example_server
                  example_world).1
               = Throw {| message := "Received one or more errors" |})
    by reflexivity.
  assert (H2 : ∀ e call, accept_all e call = None) by reflexivity.
  split; [exact H1|].
  split; [exact (proj1 (proj2 (proj2
            (proj1 (tick_rejects_only_in_builder example_config example_validate
                      example_labels example_raster empty_version_env
                      example_server example_world) _ H1))))|].
  split; [exact H2|].
  exact (proj2 (tick_rejects_only_in_builder example_config accept_all
                  example_labels example_raster empty_version_env
                  example_server example_world) H2).
Defined.

Lemma tick_touches_own_channel_only_witness :
  "7" ≠ channelId example_server
  ∧ playerHistory
      (exec (updateServerStatus example_config example_validate example_labels example_raster
               example_env example_server) two_sample_world) !! "7"
    = playerHistory two_sample_world !! "7".
Proof.
  assert (H : "7" ≠ channelId example_server) by discriminate.
  split; [exact H|].
  exact (proj1 (tick_touches_own_channel_only example_config example_validate example_labels
                  example_raster example_env example_server two_sample_world
                  "7" H)).
Defined.

Lemma online_tick_records_observation_witness :
  resolved example_env = Some {| channelRef := "42" |}
  ∧ outcome (util_status example_env) = Ok example_response
  ∧ 1 ≤ default 24 (historyHours (chart (display example_server)))
  ∧ series example_world (channelId example_server) = []
  ∧ series (exec (updateServerStatus example_config example_validate example_labels example_raster
                    example_env example_server) example_world)
           (channelId example_server)
    = [{| timestamp := 10; count := 5 |}].
Proof.
  assert (H1 : resolved example_env = Some {| channelRef := "42" |}) by reflexivity.
  assert (H2 : outcome (util_status example_env) = Ok example_response)
    by reflexivity.
  assert (H3 : 1 ≤ default 24 (historyHours (chart (display example_server))))
    by (simpl; lia).
  assert (H4 : series example_world (channelId example_server) = [])
    by reflexivity.
  split; [exact H1|]. split; [exact H2|]. split; [exact H3|]. split; [exact H4|].
  exact (proj2 (online_tick_records_observation example_config example_validate example_labels
                  example_raster example_env example_server example_world
                  _ _ H1 H2 H3) H4).
Defined.

Lemma unresolved_tick_is_noop_witness :
  resolved unresolved_env = None
  ∧ playerHistory
      (exec (updateServerStatus example_config example_validate example_labels example_raster
               unresolved_env example_server) two_sample_world)
    = playerHistory two_sample_world.
Proof.
  assert (H : resolved unresolved_env = None) by reflexivity.
  split; [exact H|].
  exact (proj1 (proj2 (unresolved_tick_is_noop example_config example_validate example_labels
                         example_raster unresolved_env example_server
                         two_sample_world H))).
Defined.

Lemma example_tick_payload_delivered :
  example_tick_payload
  ∈ omap payload_of
      (events (updateServerStatus example_config example_validate example_labels example_raster
                 example_env example_server) two_sample_world).
Proof. vm_compute. repeat constructor. Defined.

Lemma tick_payload_image_witness :
  example_tick_payload
  ∈ omap payload_of
      (events (updateServerStatus example_config example_validate example_labels example_raster
                 example_env example_server) two_sample_world)
  ∧ length (files example_tick_payload) = 1%nat.
Proof.
  split; [exact example_tick_payload_delivered|].
  rewrite (proj1 (tick_payload_image example_config example_validate example_labels example_raster
                    example_env example_server two_sample_world
                    example_tick_payload example_tick_payload_delivered)).
  reflexivity.
Defined.

Lemma tick_payload_fields_witness :
  example_tick_payload
  ∈ omap payload_of
      (events (updateServerStatus example_config example_validate example_labels example_raster
                 example_env example_server) two_sample_world)
  ∧ content example_tick_payload = None.
Proof.
  split; [exact example_tick_payload_delivered|].
  exact (proj1 (tick_payload_fields example_config example_validate example_labels example_raster
                  example_env example_server two_sample_world
                  example_tick_payload example_tick_payload_delivered)).
Defined.

Lemma other_interactions_ignored_witness :
  isCommand ignored_interaction
  && String.eqb (commandName ignored_interaction) "status" = false
  ∧ interactionCreate example_config toLowerCase_ascii example_validate example_labels example_raster example_env
      ignored_interaction two_sample_world
    = (Ok tt, two_sample_world).
Proof.
  assert (H : isCommand ignored_interaction
              && String.eqb (commandName ignored_interaction) "status" = false)
    by reflexivity.
  split; [exact H|].
  exact (other_interactions_ignored example_config toLowerCase_ascii example_validate example_labels example_raster
           example_env ignored_interaction two_sample_world H).
Defined.

Lemma status_command_rejects_in_builder_or_reply_witness :
  isCommand status_interaction = true
  ∧ commandName status_interaction = "status"
  ∧ StReply
    ∈ steps (events (interactionCreate example_config toLowerCase_ascii
                       example_validate example_labels example_raster
                       example_env status_interaction) two_sample_world)
  ∧ (interactionCreate example_config toLowerCase_ascii example_validate
       example_labels example_raster example_env status_interaction
       two_sample_world).1
    = outcome (interaction_reply example_env).
Proof.
  assert (H1 : isCommand status_interaction = true) by reflexivity.
  assert (H2 : commandName status_interaction = "status") by reflexivity.
  assert (H3 : StReply
               ∈ steps (events (interactionCreate example_config
                                  toLowerCase_ascii example_validate
                                  example_labels example_raster example_env
                                  status_interaction) two_sample_world))
    by (vm_compute; repeat constructor).
  split; [exact H1|]. split; [exact H2|]. split; [exact H3|].
  exact (proj1 (proj1 (status_command_rejects_in_builder_or_reply example_config
                         toLowerCase_ascii example_validate example_labels
                         example_raster example_env status_interaction
                         two_sample_world H1 H2) H3)).
Defined.

Lemma example_reply_delivered :
  example_reply
  ∈ omap payload_of
      (events (interactionCreate example_config toLowerCase_ascii example_validate example_labels example_raster
                 example_env status_interaction) two_sample_world).
Proof. vm_compute. repeat constructor. Defined.

Lemma status_command_payload_witness :
  List.find (λ s, String.eqb (toLowerCase_ascii (name s))
                             (toLowerCase_ascii (options_server status_interaction)))
            (minecraft_servers example_config) = Some example_server
  ∧ example_reply
    ∈ omap payload_of
        (events (interactionCreate example_config toLowerCase_ascii example_validate example_labels example_raster
                   example_env status_interaction) two_sample_world)
  ∧ ephemeral example_reply = true.
Proof.
  assert (H : List.find
                (λ s, String.eqb (toLowerCase_ascii (name s))
                        (toLowerCase_ascii (options_server status_interaction)))
                (minecraft_servers example_config) = Some example_server)
    by reflexivity.
  split; [exact H|]. split; [exact example_reply_delivered|].
  exact (proj1 (proj2 (status_command_payload example_config toLowerCase_ascii example_validate example_labels
                         example_raster example_env status_interaction
                         two_sample_world example_server example_reply
                         H example_reply_delivered))).
Defined.

Lemma no_timers_wf : timers_wf no_timers ∧ all_registered no_timers.
Proof.
  split; [split|].
  - intros k h Hk. simpl in Hk. by rewrite lookup_empty in Hk.
  - intros h [x Hh]. simpl in Hh. by rewrite lookup_empty in Hh.
  - intros h [x Hh]. simpl in Hh. by rewrite lookup_empty in Hh.
Defined.

Lemma example_channels_distinct :
  NoDup (channelId <$> minecraft_servers example_config).
Proof. apply NoDup_singleton. Defined.

Lemma initialize_stops_registered_timers_witness :
  timers_wf example_timers
  ∧ updateIntervals example_timers !! "42" = Some 0%nat
  ∧ scheduled (initializeStatusUpdates example_config example_timers).1 !! 0%nat
    = None.
Proof.
  assert (H1 : timers_wf example_timers)
    by exact (proj1 (proj2 (initialize_invariants example_config no_timers
                              (proj1 no_timers_wf) (proj2 no_timers_wf)))).
  assert (H2 : updateIntervals example_timers !! "42" = Some 0%nat)
    by (vm_compute; reflexivity).
  split; [exact H1|]. split; [exact H2|].
  exact (initialize_stops_registered_timers example_config example_timers
           "42" 0%nat H1 H2).
Defined.

Lemma initialize_schedules_each_server_witness :
  timers_wf no_timers
  ∧ all_registered no_timers
  ∧ launched (initializeStatusUpdates example_config no_timers).2
    = [example_server].
Proof.
  split; [exact (proj1 no_timers_wf)|]. split; [exact (proj2 no_timers_wf)|].
  exact (proj1 (initialize_schedules_each_server example_config no_timers
                  (proj1 no_timers_wf) (proj2 no_timers_wf))).
Defined.

Lemma initialize_registers_each_timer_witness :
  NoDup (channelId <$> minecraft_servers example_config)
  ∧ timers_wf no_timers
  ∧ all_registered no_timers
  ∧ all_registered (initializeStatusUpdates example_config no_timers).1.
Proof.
  split; [exact example_channels_distinct|].
  split; [exact (proj1 no_timers_wf)|]. split; [exact (proj2 no_timers_wf)|].
  exact (proj2 (proj2 (initialize_registers_each_timer example_config no_timers
                         example_channels_distinct
                         (proj1 no_timers_wf) (proj2 no_timers_wf)))).
Defined.

Lemma reinitialize_never_duplicates_witness :
  NoDup (channelId <$> minecraft_servers example_config)
  ∧ ∃ base,
      ∀ h, scheduled
             (Nat.iter 3 (λ t, (initializeStatusUpdates example_config t).1)
                no_timers) !! h
           = if decide (base ≤ h < base + 1)%nat
             then [example_server] !! (h - base)%nat
             else None.
Proof.
  split; [exact example_channels_distinct|].
  exact (reinitialize_never_duplicates example_config 2 example_channels_distinct).
Defined.

Lemma first_tick_has_no_chart_witness :
  series example_world (channelId example_server) = []
  ∧ Forall (λ p, files p = [])
      (omap payload_of
         (events (updateServerStatus example_config example_validate example_labels example_raster
                    example_env example_server) example_world)).
Proof.
  assert (H : series example_world (channelId example_server) = []) by reflexivity.
  split; [exact H|].
  apply Forall_forall. intros p Hp.
  exact (first_tick_has_no_chart example_config example_validate example_labels example_raster
           example_env example_server example_world p H Hp).
Defined.

Lemma overlapping_reconciles_last_write_wins_witness :
  channelId example_server = channelId example_server
  ∧ statusMessages example_world !! channelId example_server = None
  ∧ outcome (channel_send example_env) = Ok {| messageId := "m1" |}
  ∧ outcome (channel_send failing_edit_env) = Ok {| messageId := "m2" |}
  ∧ statusMessages
      (exec (reconcile_overlapped
               example_env example_server {| channelRef := "42" |}
               example_tick_payload
               failing_edit_env example_server {| channelRef := "42" |}
               example_tick_payload) example_world)
      !! "42" = Some {| messageId := "m2" |}.
Proof.
  assert (H1 : channelId example_server = channelId example_server) by reflexivity.
  assert (H2 : statusMessages example_world !! channelId example_server = None)
    by reflexivity.
  assert (H3 : outcome (channel_send example_env) = Ok {| messageId := "m1" |})
    by reflexivity.
  assert (H4 : outcome (channel_send failing_edit_env)
               = Ok {| messageId := "m2" |}) by reflexivity.
  split; [exact H1|]. split; [exact H2|]. split; [exact H3|]. split; [exact H4|].
  exact (proj2 (proj2 (proj2
           (overlapping_reconciles_last_write_wins
              example_env example_server {| channelRef := "42" |}
              example_tick_payload
              failing_edit_env example_server {| channelRef := "42" |}
              example_tick_payload example_world _ _ H1 H2 H3 H4)))).
Defined.
